(** * vscode-elm-lsp: the extension's control logic, embedded and verified

    The development follows [src/extension.ts].  Each part of the
    extension that the specification talks about is translated into an
    executable Rocq definition:

    - [Platform]  : [getPlatformTarget];
    - [Locator]   : [findServerBinary];
    - [Download]  : [downloadFile], over a file system and a remote
                    side that answers every GET;
    - [Restart]   : the [elm-lsp.restartServer] command, as tasks that
                    suspend at every [await] and are resumed by the
                    event loop;
    - [Rename]    : the [onWillRenameFiles] handler;
    - [CodeLens]  : [ElmReferencesCodeLensProvider];
    - [Installer] : [fetchLatestRelease] and [downloadBinary];
    - [Activation]: [activate] and [deactivate];
    - [Commands]  : the [elm-lsp.moveFunction] and [elm-lsp.generateErd]
                    commands.

    Strings are [string], JavaScript objects used as ordered maps are
    association lists, the file system is a [gmap] from paths to
    contents and the set of live server connections is a [gset]. *)

From Stdlib Require Import String Ascii List Bool Arith Lia.
From Stdlib Require Import Decimal DecimalString.
From stdpp Require Import base gmap strings list.
Import ListNotations.

Local Open Scope string_scope.
Local Open Scope list_scope.

(** ** Results of calls that may throw *)

(** A JavaScript call either returns a value or throws; the thrown value
    is kept as the message it prints. *)
Inductive result (A : Type) : Type :=
| Ok (a : A)
| Throw (msg : string).
Arguments Ok {A} a.
Arguments Throw {A} msg.

(** ** JavaScript string helpers *)

(** [s.startsWith(p)] *)
Fixpoint startsWith (s p : string) : bool :=
  match p, s with
  | EmptyString, _ => true
  | String c p', String d s' => if Ascii.eqb c d then startsWith s' p' else false
  | String _ _, EmptyString => false
  end.

Fixpoint str_rev_onto (s acc : string) : string :=
  match s with
  | EmptyString => acc
  | String c s' => str_rev_onto s' (String c acc)
  end.

Definition str_rev (s : string) : string := str_rev_onto s EmptyString.

(** [s.endsWith(suffix)]: the suffix read backwards starts the string
    read backwards. *)
Definition endsWith (s suffix : string) : bool :=
  startsWith (str_rev s) (str_rev suffix).

(** JavaScript truthiness of a [string | undefined] value: [undefined]
    and the empty string are falsy. *)
Definition truthy_string (o : option string) : bool :=
  match o with
  | Some s => negb (String.eqb s "")
  | None => false
  end.

(** The template literal [`${n}`] for a non-negative integer. *)
Definition string_of_nat (n : nat) : string :=
  NilEmpty.string_of_uint (Nat.to_uint n).

(** ** The [path] module

    The extension calls Node's [path] module; its functions are taken
    as an interface, and every theorem about the extension holds for any
    implementation of it. *)
Class PathApi : Type := {
  path_join : list string -> string;
  path_dirname : string -> string;
  path_basename : string -> string;
  path_relative : string -> string -> string
}.

(** An implementation for absolute POSIX paths, the ones the editor
    hands over on Linux and macOS.  It is used to run the extension on
    concrete inputs. *)
Module Posix.

Definition slash : ascii := "/"%char.

Definition is_slash (c : ascii) : bool := Ascii.eqb c slash.

(** [s.split('/')] *)
Fixpoint segments (s : string) : list string :=
  match s with
  | EmptyString => [EmptyString]
  | String c s' =>
      if is_slash c then EmptyString :: segments s'
      else match segments s' with
           | seg :: rest => String c seg :: rest
           | [] => [String c EmptyString]
           end
  end.

(** One step of [normalizeString]: [res] holds the segments kept so far,
    last one first. *)
Definition push_segment (allowAboveRoot : bool) (res : list string) (seg : string)
  : list string :=
  if String.eqb seg "" || String.eqb seg "." then res
  else if String.eqb seg ".." then
    match res with
    | top :: below =>
        if String.eqb top ".." then seg :: res else below
    | [] => if allowAboveRoot then [seg] else []
    end
  else seg :: res.

Definition normalize_segments (allowAboveRoot : bool) (segs : list string) : list string :=
  rev (fold_left (push_segment allowAboveRoot) segs []).

Definition isAbsolute (p : string) : bool := startsWith p "/".

Definition normalize (p : string) : string :=
  if String.eqb p "" then "."
  else
    let body := String.concat "/" (normalize_segments (negb (isAbsolute p)) (segments p)) in
    let trailing := endsWith p "/" in
    if String.eqb body "" then
      if isAbsolute p then "/" else if trailing then "./" else "."
    else
      let body := if trailing then body +:+ "/" else body in
      if isAbsolute p then "/" +:+ body else body.

Definition join (parts : list string) : string :=
  match List.filter (fun s => negb (String.eqb s "")) parts with
  | [] => "."
  | kept => normalize (String.concat "/" kept)
  end.

Fixpoint drop_while (f : ascii -> bool) (s : string) : string :=
  match s with
  | EmptyString => EmptyString
  | String c s' => if f c then drop_while f s' else s
  end.

Fixpoint take_while (f : ascii -> bool) (s : string) : string :=
  match s with
  | EmptyString => EmptyString
  | String c s' => if f c then String c (take_while f s') else EmptyString
  end.

Definition not_slash (c : ascii) : bool := negb (is_slash c).

(** [dirname]: scanning from the end, skip the trailing slashes and the
    last component; what is left of the slash found is the directory. *)
Definition dirname (p : string) : string :=
  if String.eqb p "" then "."
  else
    let hasRoot := isAbsolute p in
    match drop_while not_slash (drop_while is_slash (str_rev p)) with
    | EmptyString | String _ EmptyString => if hasRoot then "/" else "."
    | String _ (String c EmptyString as before) =>
        if hasRoot then "//" else str_rev before
    | String _ before => str_rev before
    end.

Definition basename (p : string) : string :=
  str_rev (take_while not_slash (drop_while is_slash (str_rev p))).

Fixpoint strip_common (a b : list string) : list string * list string :=
  match a, b with
  | x :: a', y :: b' => if String.eqb x y then strip_common a' b' else (a, b)
  | _, _ => (a, b)
  end.

(** [relative(from, to)] for absolute paths. *)
Definition relative (from to : string) : string :=
  let f := normalize_segments false (segments from) in
  let t := normalize_segments false (segments to) in
  let '(up, down) := strip_common f t in
  String.concat "/" (map (fun _ => "..") up ++ down).

End Posix.

Definition posix_path : PathApi := {|
  path_join := Posix.join;
  path_dirname := Posix.dirname;
  path_basename := Posix.basename;
  path_relative := Posix.relative
|}.

(** ** Platform resolver *)

Module Platform.

(** [getPlatformTarget], with [process.platform] and [process.arch] as
    arguments. *)
Definition getPlatformTarget (platform arch : string) : result string :=
  if String.eqb platform "darwin" then
    Ok (if String.eqb arch "arm64" then "darwin-arm64" else "darwin-x64")
  else if String.eqb platform "linux" then
    Ok "linux-x64"
  else if String.eqb platform "win32" then
    Ok "win32-x64"
  else
    Throw ("Unsupported platform: " +:+ platform +:+ "-" +:+ arch).

(** The fixed set of canonical targets. *)
Definition canonical_targets : list string :=
  ["darwin-arm64"; "darwin-x64"; "linux-x64"; "win32-x64"].

Definition is_canonical (t : string) : bool :=
  existsb (String.eqb t) canonical_targets.

(** The specification's reading of a supported combination: the
    {os, architecture} pairs that the four canonical targets name. *)
Definition supported_pair (platform arch : string) : bool :=
  is_canonical (platform +:+ "-" +:+ arch).

(** The operating systems the code has a branch for. *)
Definition supported_os (platform : string) : bool :=
  existsb (String.eqb platform) ["darwin"; "linux"; "win32"].

(** The call returns one of the canonical targets. *)
Definition returns_canonical (platform arch : string) : Prop :=
  exists t, getPlatformTarget platform arch = Ok t /\ is_canonical t = true.

(** The call throws. *)
Definition throws (platform arch : string) : Prop :=
  exists msg, getPlatformTarget platform arch = Throw msg.

End Platform.

(** ** Binary locator *)

Module Locator.

(** What [findServerBinary] reads from its surroundings: the
    [elm-lsp.server.path] option, the file system through
    [fs.existsSync], [process.platform], and the two paths of the
    extension context. *)
Record Host : Type := {
  server_path : option string;
  existsSync : string -> bool;
  platform : string;
  globalStoragePath : string;
  extensionPath : string
}.

Definition BINARY_NAME (h : Host) : string :=
  if String.eqb (platform h) "win32" then "elm_lsp.exe" else "elm_lsp".

Section WithPath.
Context {path : PathApi}.

Definition downloadedBinary (h : Host) : string :=
  path_join [globalStoragePath h; BINARY_NAME h].

Definition releaseBuild (h : Host) : string :=
  path_join [extensionPath h; ".."; "elm-lsp-rust"; "target"; "release"; "elm_lsp"].

Definition debugBuild (h : Host) : string :=
  path_join [extensionPath h; ".."; "elm-lsp-rust"; "target"; "debug"; "elm_lsp"].

Definition devPaths (h : Host) : list string := [releaseBuild h; debugBuild h].

(** [configPath && fs.existsSync(configPath)] *)
Definition config_usable (h : Host) : bool :=
  match server_path h with
  | Some p => truthy_string (Some p) && existsSync h p
  | None => false
  end.

(** The function has no throwing path ([fs.existsSync] answers [false]
    on any failure), so its value is the promise's value: [Some p] for a
    path, [None] for [undefined]. *)
Definition findServerBinary (h : Host) : option string :=
  if config_usable h then server_path h
  else if existsSync h (downloadedBinary h) then Some (downloadedBinary h)
  else List.find (existsSync h) (devPaths h).

End WithPath.

End Locator.

(** ** Binary installer: [downloadFile] *)

Module Download.

(** The file system: the files that exist, with their contents. *)
Abbreviation FileSystem := (gmap string string).

(** What one call [https.get(url, options, callback)] leads to.
    - [Response]: the callback runs with a status code and the
      [Location] header, and the body arrives in full.  A response
      without the header hands [undefined] to the next [https.get];
      its [location] is written as the empty string here, and the
      answer to the empty string says what becomes of that call.
    - [Truncated]: the callback runs with status 200, and the
      connection breaks after [partial] of the body has arrived.
    - [RequestError]: the request emits ['error'].
    - [Throws]: [https.get] itself throws, before any request is made,
      as it does for a string that is not an absolute [https:] URL
      (a relative [Location], for one). *)
Inductive Exchange : Type :=
| Response (statusCode : nat) (location : string) (body : string)
| Truncated (partial : string)
| RequestError (err : string)
| Throws (err : string).

(** Node's [https.get] and the remote side: what a GET on a string
    leads to.  The answer to a string that [https.get] refuses is
    [Throws]; an answer of another kind says that the string was
    accepted as a URL and the request was made. *)
Definition Network : Type := string -> Exchange.

(** How the promise settles.  [Pending] is a promise that is not
    settled: one that is still following redirects when the fuel runs
    out, or one that nothing will settle any more. *)
Inductive Settled : Type :=
| Resolved
| Rejected (msg : string)
| Pending.

(** [fs.createWriteStream(dest)] opens with flag ['w']: the file is
    created, or truncated when it exists. *)
Definition createWriteStream (dest : string) (fs : FileSystem) : FileSystem :=
  <[dest := ""]> fs.

(** [fs.unlink(dest, () => { })] *)
Definition unlink (dest : string) (fs : FileSystem) : FileSystem :=
  delete dest fs.

(** [res.pipe(file)] up to the ['finish'] event: the body is appended to
    what the stream has written. *)
Definition pipe (dest body : string) (fs : FileSystem) : FileSystem :=
  <[dest := default "" (fs !! dest) +:+ body]> fs.

(** The inner function [request]; one unit of fuel per GET.  The call
    returns, [Ok], with what its callbacks make of the promise, or it
    throws what [https.get] threw.  The recursive call is made inside
    the response callback, where nothing catches what it throws: the
    promise is left as it is.  A body that breaks off is piped as far as
    it came, and ['finish'] never fires. *)
Fixpoint request (net : Network) (fuel : nat) (url dest : string) (fs : FileSystem)
  : FileSystem * result Settled :=
  match fuel with
  | O => (fs, Ok Pending)
  | S fuel' =>
      match net url with
      | Response statusCode location body =>
          if (statusCode =? 302)%nat || (statusCode =? 301)%nat then
            match request net fuel' location dest fs with
            | (fs', Ok settled) => (fs', Ok settled)
            | (fs', Throw _) => (fs', Ok Pending)
            end
          else if negb (statusCode =? 200)%nat then
            (fs, Ok (Rejected ("Download failed: " +:+ string_of_nat statusCode)))
          else
            (pipe dest body fs, Ok Resolved)
      | Truncated partial =>
          (pipe dest partial fs, Ok Pending)
      | RequestError err =>
          (unlink dest fs, Ok (Rejected err))
      | Throws err =>
          (fs, Throw err)
      end
  end.

(** [downloadFile(url, dest)]: the promise executor opens the stream and
    calls [request(url)]; what that call throws rejects the promise. *)
Definition downloadFile (net : Network) (fuel : nat) (url dest : string) (fs : FileSystem)
  : FileSystem * Settled :=
  match request net fuel url dest (createWriteStream dest fs) with
  | (fs', Ok settled) => (fs', settled)
  | (fs', Throw err) => (fs', Rejected err)
  end.

(** The download failed: the promise was rejected. *)
Definition failed (out : FileSystem * Settled) : bool :=
  match snd out with Rejected _ => true | _ => false end.

(** A server that answers every GET with [404]. *)
Definition not_found_server : Network :=
  fun _ => Response 404 "" "Not Found".

(** A server whose connection fails. *)
Definition unreachable_server : Network :=
  fun _ => RequestError "ECONNREFUSED".

End Download.

(** ** Server supervisor: the [elm-lsp.restartServer] command *)

Module Restart.

(** Messages shown to the user. *)
Inductive Notice : Type :=
| WarningMessage (msg : string)
| InformationMessage (msg : string).

(** The calls the handler makes on its collaborators.  A
    [LanguageClient] object is named by the number it was created with. *)
Inductive Call : Type :=
| CallStop (c : nat)
| CallFindServerBinary
| CallStart (c : nat) (serverPath : string).

(** The module-level variables [client] and [isRestarting], and around
    them: the connections that are up, the number of [LanguageClient]
    objects constructed so far, the notices shown and the calls made. *)
Record World : Type := {
  client : option nat;
  isRestarting : bool;
  live : gset nat;
  created : nat;
  notices : list Notice;
  calls : list Call
}.

Definition set_isRestarting (b : bool) (w : World) : World :=
  {| client := client w; isRestarting := b; live := live w;
     created := created w; notices := notices w; calls := calls w |}.

Definition set_client (c : option nat) (w : World) : World :=
  {| client := c; isRestarting := isRestarting w; live := live w;
     created := created w; notices := notices w; calls := calls w |}.

Definition set_live (l : gset nat) (w : World) : World :=
  {| client := client w; isRestarting := isRestarting w; live := l;
     created := created w; notices := notices w; calls := calls w |}.

Definition set_created (n : nat) (w : World) : World :=
  {| client := client w; isRestarting := isRestarting w; live := live w;
     created := n; notices := notices w; calls := calls w |}.

Definition notify (n : Notice) (w : World) : World :=
  {| client := client w; isRestarting := isRestarting w; live := live w;
     created := created w; notices := notices w ++ [n]; calls := calls w |}.

Definition record_call (c : Call) (w : World) : World :=
  {| client := client w; isRestarting := isRestarting w; live := live w;
     created := created w; notices := notices w; calls := calls w ++ [c] |}.

(** The [await] an invocation is suspended at. *)
Inductive Pc : Type :=
| AwaitStop (c : nat)
| AwaitFind
| AwaitStart (c : nat).

(** How an awaited promise settles. *)
Inductive Settle : Type :=
| StopSettled (r : result unit)
| FindSettled (r : result (option string))
| StartSettled (r : result unit).

(** Where a run of the handler stands when it gives control back. *)
Inductive Status : Type :=
| Suspended (pc : Pc)
| Returned
| Thrown (msg : string).

(** The [finally] block. *)
Definition finally (w : World) : World := set_isRestarting false w.

(** The call [findServerBinary(context)], whose promise is awaited. *)
Definition call_find (w : World) : World * Status :=
  (record_call CallFindServerBinary w, Suspended AwaitFind).

(** The handler from its first line to its first [await]. *)
Definition restart_enter (w : World) : World * Status :=
  if isRestarting w then
    (notify (WarningMessage "Elm LSP is already restarting...") w, Returned)
  else
    let w := set_isRestarting true w in
    match client w with
    | Some c => (record_call (CallStop c) w, Suspended (AwaitStop c))
    | None => call_find w
    end.

(** [startLanguageClient(context, newPath)] up to [await client.start()]:
    a new [LanguageClient] is constructed and assigned to [client]. *)
Definition startLanguageClient (serverPath : string) (w : World) : World * Status :=
  let c := created w in
  let w := set_created (S c) (set_client (Some c) w) in
  (record_call (CallStart c serverPath) w, Suspended (AwaitStart c)).

(** The handler from one [await] to the next, or to its end.  [None]:
    the settlement is not the one the suspended handler waits for. *)
Definition restart_resume (w : World) (pc : Pc) (s : Settle) : option (World * Status) :=
  match pc, s with
  | AwaitStop c, StopSettled (Ok _) =>
      Some (call_find (set_live (live w ∖ {[c]}) w))
  | AwaitStop _, StopSettled (Throw e) =>
      Some (finally w, Thrown e)
  | AwaitFind, FindSettled (Ok newPath) =>
      if truthy_string newPath then
        Some (startLanguageClient (default "" newPath) w)
      else
        Some (finally w, Returned)
  | AwaitFind, FindSettled (Throw e) =>
      Some (finally w, Thrown e)
  | AwaitStart c, StartSettled (Ok _) =>
      let w := set_live (live w ∪ {[c]}) w in
      Some (finally (notify (InformationMessage "Elm LSP restarted") w), Returned)
  | AwaitStart _, StartSettled (Throw e) =>
      Some (finally w, Thrown e)
  | _, _ => None
  end.

(** The extension host: the world and the suspended invocations of the
    handler.  Nothing in this type bounds their number. *)
Record System : Type := {
  world : World;
  tasks : list Pc
}.

(** What the event loop runs next: the user invokes the command, or the
    promise the [i]-th suspended invocation waits for settles. *)
Inductive Event : Type :=
| Invoke
| Settles (i : nat) (s : Settle).

Definition step (sys : System) (e : Event) : option System :=
  match e with
  | Invoke =>
      match restart_enter (world sys) with
      | (w, Suspended pc) => Some {| world := w; tasks := tasks sys ++ [pc] |}
      | (w, _) => Some {| world := w; tasks := tasks sys |}
      end
  | Settles i s =>
      match tasks sys !! i with
      | Some pc =>
          match restart_resume (world sys) pc s with
          | Some (w, Suspended pc') => Some {| world := w; tasks := <[i := pc']> (tasks sys) |}
          | Some (w, _) => Some {| world := w; tasks := delete i (tasks sys) |}
          | None => None
          end
      | None => None
      end
  end.

Fixpoint run (sys : System) (es : list Event) : option System :=
  match es with
  | [] => Some sys
  | e :: es' =>
      match step sys e with
      | Some sys' => run sys' es'
      | None => None
      end
  end.

(** The extension as [activate] leaves it, and as it is between two
    restarts: no restart in flight, and no connection up other than the
    one of [client]. *)
Definition quiescent (sys : System) : Prop :=
  isRestarting (world sys) = false /\
  tasks sys = [] /\
  (forall c, c ∈ live (world sys) -> client (world sys) = Some c).

(** The world right after a successful [activate]: client 0 is up. *)
Definition activated : System :=
  {| world := {| client := Some 0; isRestarting := false; live := {[0]};
                 created := 1; notices := [InformationMessage "Elm LSP started"];
                 calls := [] |};
     tasks := [] |}.

(** The number of connections that are up. *)
Definition connections (sys : System) : nat := size (live (world sys)).

(** An invocation has run to its end. *)
Definition finished (st : Status) : bool :=
  match st with
  | Suspended _ => false
  | Returned | Thrown _ => true
  end.

(** What holds of the world while an invocation waits at [pc]. *)
Definition waiting_at (w : World) (pc : Pc) : Prop :=
  match pc with
  | AwaitStop c => client w = Some c
  | AwaitFind => live w = ∅
  | AwaitStart c => client w = Some c /\ live w = ∅
  end.

(** The invariant of the reachable states: the flag is up exactly while
    one invocation is suspended, there is never a second one, and only
    the connection of [client] can be up. *)
Definition invariant (sys : System) : Prop :=
  (forall c, c ∈ live (world sys) -> client (world sys) = Some c) /\
  match tasks sys with
  | [] => isRestarting (world sys) = false
  | [pc] => isRestarting (world sys) = true /\ waiting_at (world sys) pc
  | _ => False
  end.

(** A restart during which no server binary is found. *)
Definition restart_without_binary : list Event :=
  [Invoke; Settles 0 (StopSettled (Ok tt)); Settles 0 (FindSettled (Ok None))].

(** A restart that goes through, with a second request while the first
    waits for the old client to stop. *)
Definition restart_twice : list Event :=
  [Invoke; Invoke;
   Settles 0 (StopSettled (Ok tt));
   Settles 0 (FindSettled (Ok (Some "/opt/elm/elm_lsp")));
   Settles 0 (StartSettled (Ok tt))].

End Restart.

(** ** The protocol, as far as the extension uses it *)

(** A [vscode.Uri], by the two views the extension takes of it. *)
Record Uri : Type := { fsPath : string; toString : string }.

Record Position : Type := { line : nat; character : nat }.

Record Range : Type := { range_start : Position; range_end : Position }.

(** A range as it is written in a protocol message: the four numbers
    as they come, in the protocol's unsigned integers. *)
Definition wireRange (sl sc el ec : nat) : Range :=
  {| range_start := {| line := sl; character := sc |};
     range_end := {| line := el; character := ec |} |}.

(** [position.isBefore(other)] *)
Definition isBefore (p q : Position) : bool :=
  (line p <? line q)%nat || ((line p =? line q)%nat && (character p <? character q)%nat).

(** [new vscode.Range(startLine, startCharacter, endLine, endCharacter)]:
    the constructor keeps the two positions when the first is before the
    second, and swaps them otherwise.  Its arguments here are natural
    numbers, so that its test for a negative line or character never
    fails. *)
Definition mkRange (sl sc el ec : nat) : Range :=
  let s := {| line := sl; character := sc |} in
  let e := {| line := el; character := ec |} in
  if isBefore s e then {| range_start := s; range_end := e |}
  else {| range_start := e; range_end := s |}.

(** A range with its two ends in document order. *)
Definition inOrder (r : Range) : Range :=
  let swapped := {| range_start := range_end r; range_end := range_start r |} in
  match Nat.compare (line (range_start r)) (line (range_end r)) with
  | Lt => r
  | Gt => swapped
  | Eq =>
      if (character (range_end r) <? character (range_start r))%nat then swapped else r
  end.

(** The three requests the extension sends through
    [client.sendRequest]. *)
Inductive Request : Type :=
| DocumentSymbolRequest (uri : string)
| ReferencesRequest (uri : string) (position : Position) (includeDeclaration : bool)
| ExecuteCommandRequest (command : string) (arguments : list string).

Record Location : Type := { loc_uri : string; loc_range : Range }.

(** An entry of a document-symbol response.  The flat format carries a
    [location]; the kind is the number found in the response. *)
Record SymbolInfo : Type := {
  name : string;
  kind : nat;
  location : option Location
}.

(** An edit of a rename result; [range] may be missing from the JSON. *)
Record TextEdit : Type := { edit_range : option Range; newText : string }.

(** The result of [elm.renameFile] and [elm.moveFile].  [changes] is the
    object whose entries [Object.entries] lists, in that order. *)
Record CommandResult : Type := {
  success : bool;
  changes : option (list (string * list TextEdit));
  error : option string;
  oldModuleName : string;
  newModuleName : string;
  filesUpdated : nat
}.

(** The JSON values a request resolves to. *)
Inductive Response : Type :=
| Null
| LocationArray (locations : list Location)
| SymbolArray (symbols : list SymbolInfo)
| CommandObject (r : CommandResult).

(** The language client: the server behind it has a state, and answers a
    request with a response or a failure. *)
Class Client : Type := {
  Server : Type;
  answer : Server -> Request -> result Response * Server
}.

(** ** Rename synchronizer: the [onWillRenameFiles] handler *)

Module Rename.

(** One entry of [event.files]. *)
Record FilePair : Type := { oldUri : Uri; newUri : Uri }.

(** One [workspaceEdit.replace(uri, range, newText)]. *)
Record Replace : Type := {
  replace_uri : string;
  replace_range : Range;
  replace_text : string
}.

(** A [vscode.WorkspaceEdit]: the replacements, in the order they were
    made. *)
Definition WorkspaceEdit : Type := list Replace.

Section Handler.
Context {path : PathApi} {lsp : Client}.

(** [vscode.workspace.getWorkspaceFolder(uri)], by the [fsPath] of the
    folder found. *)
Variable getWorkspaceFolder : Uri -> option string.

(** What the handler reads and writes: the server behind [client], the
    requests sent, the [workspaceEdit] under construction, the lines of
    the output channel and the warnings shown. *)
Record St : Type := {
  server : Server;
  sent : list Request;
  workspaceEdit : WorkspaceEdit;
  channel : list string;
  warnings : list string
}.

(** Computations that read and write [St] and may throw. *)
Definition M (A : Type) : Type := St -> result A * St.

Definition ret {A} (a : A) : M A := fun st => (Ok a, st).

Definition throw {A} (msg : string) : M A := fun st => (Throw msg, st).

Definition bind {A B} (m : M A) (k : A -> M B) : M B :=
  fun st =>
    match m st with
    | (Ok a, st') => k a st'
    | (Throw e, st') => (Throw e, st')
    end.

(** [try { body } catch (e) { handler(e) }] *)
Definition try_catch {A} (body : M A) (handler : string -> M A) : M A :=
  fun st =>
    match body st with
    | (Ok a, st') => (Ok a, st')
    | (Throw e, st') => handler e st'
    end.

Notation "'let*' x ':=' m 'in' k" := (bind m (fun x => k))
  (at level 10, x name, m at level 100, k at level 200).
Notation "m ';;' k" := (bind m (fun _ => k))
  (at level 100, k at level 200, right associativity).

(** [await client.sendRequest(...)] *)
Definition sendRequest (req : Request) : M Response :=
  fun st =>
    (fst (answer (server st) req),
     {| server := snd (answer (server st) req); sent := sent st ++ [req];
        workspaceEdit := workspaceEdit st;
        channel := channel st; warnings := warnings st |}).

(** [workspaceEdit.replace(uri, range, newText)] *)
Definition replace (uri : string) (r : Range) (text : string) : M unit :=
  fun st =>
    (Ok tt, {| server := server st; sent := sent st;
               workspaceEdit := workspaceEdit st ++
                 [{| replace_uri := uri; replace_range := r; replace_text := text |}];
               channel := channel st; warnings := warnings st |}).

(** [outputChannel?.appendLine(line)] *)
Definition appendLine (l : string) : M unit :=
  fun st =>
    (Ok tt, {| server := server st; sent := sent st;
               workspaceEdit := workspaceEdit st;
               channel := channel st ++ [l]; warnings := warnings st |}).

(** [vscode.window.showWarningMessage(msg)] *)
Definition showWarningMessage (msg : string) : M unit :=
  fun st =>
    (Ok tt, {| server := server st; sent := sent st;
               workspaceEdit := workspaceEdit st;
               channel := channel st; warnings := warnings st ++ [msg] |}).

(** What reading [edit.range.start] throws when [edit.range] is
    [undefined]. *)
Definition missing_range : string :=
  "TypeError: Cannot read properties of undefined (reading 'start')".

(** The object the handler reads [success], [changes] and [error] from;
    on any other value these reads give [undefined]. *)
Definition asCommandResult (r : Response) : option CommandResult :=
  match r with
  | CommandObject c => Some c
  | _ => None
  end.

(** The loop over the edits of one file: reading [edit.range.start] of
    an edit without a range throws. *)
Fixpoint replaceAll (uri : string) (edits : list TextEdit) : M unit :=
  match edits with
  | [] => ret tt
  | e :: rest =>
      match edit_range e with
      | Some r =>
          replace uri
            (mkRange (line (range_start r)) (character (range_start r))
                     (line (range_end r)) (character (range_end r)))
            (newText e) ;;
          replaceAll uri rest
      | None => throw missing_range
      end
  end.

(** The loop over [Object.entries(result.changes)]. *)
Fixpoint applyChanges (entries : list (string * list TextEdit)) : M unit :=
  match entries with
  | [] => ret tt
  | (uriStr, edits) :: rest => replaceAll uriStr edits ;; applyChanges rest
  end.

Definition renameFile (f : FilePair) (newName : string) : Request :=
  ExecuteCommandRequest "elm.renameFile" [toString (oldUri f); newName].

Definition moveFile (f : FilePair) (relativePath : string) : Request :=
  ExecuteCommandRequest "elm.moveFile" [toString (oldUri f); relativePath].

(** The request of the [try] block. *)
Definition requestFor (file : FilePair) : Request :=
  let oldDir := path_dirname (fsPath (oldUri file)) in
  let newDir := path_dirname (fsPath (newUri file)) in
  let newName := path_basename (fsPath (newUri file)) in
  if String.eqb oldDir newDir then
    renameFile file newName
  else
    let relativePath :=
      match getWorkspaceFolder (oldUri file) with
      | Some root => path_relative root (fsPath (newUri file))
      | None => fsPath (newUri file)
      end in
    moveFile file relativePath.

Definition renamed_line (c : CommandResult) : string :=
  "Elm: " +:+ oldModuleName c +:+ " → " +:+ newModuleName c +:+
  " (" +:+ string_of_nat (filesUpdated c) +:+ " files updated)".

(** What follows the request inside the [try] block. *)
Definition useResult (result : option CommandResult) : M unit :=
  match result with
  | Some c =>
      (if success c then
         match changes c with
         | Some entries => applyChanges entries
         | None => ret tt
         end
       else ret tt) ;;
      (if success c then appendLine (renamed_line c)
       else if truthy_string (error c) then
         showWarningMessage ("Elm move/rename: " +:+ default "" (error c))
       else ret tt)
  | None => ret tt
  end.

(** The body of the [for] loop. *)
Definition processPair (file : FilePair) : M unit :=
  try_catch
    (let* result := sendRequest (requestFor file) in
     useResult (asCommandResult result))
    (fun e => appendLine ("Elm file rename error: " +:+ e)).

Fixpoint forEach (files : list FilePair) : M unit :=
  match files with
  | [] => ret tt
  | file :: rest => processPair file ;; forEach rest
  end.

Definition isElmPair (f : FilePair) : bool :=
  endsWith (fsPath (oldUri f)) ".elm" && endsWith (fsPath (newUri f)) ".elm".

(** [new vscode.WorkspaceEdit()] *)
Definition fresh_edit (st : St) : St :=
  {| server := server st; sent := sent st; workspaceEdit := [];
     channel := channel st; warnings := warnings st |}.

(** What the handler does with the event. *)
Inductive Outcome : Type :=
| Ignored
| WaitUntil (r : result WorkspaceEdit).

(** The handler.  [client] tells whether the variable [client] holds a
    client.  [WaitUntil r]: [event.waitUntil] was given a promise that
    settles as [r]; the editor applies the edit it resolves to. *)
Definition onWillRenameFiles (client : bool) (files : list FilePair) (st : St)
  : Outcome * St :=
  let elmFiles := List.filter isElmPair files in
  if (length elmFiles =? 0)%nat || negb client then (Ignored, st)
  else
    match forEach elmFiles (fresh_edit st) with
    | (Ok _, st') => (WaitUntil (Ok (workspaceEdit st')), st')
    | (Throw e, st') => (WaitUntil (Throw e), st')
    end.

(** *** The batch, seen from the server's answers *)

(** The answers of the server to a sequence of requests. *)
Fixpoint answers (srv : Server) (reqs : list Request) : list (result Response) :=
  match reqs with
  | [] => []
  | req :: rest => fst (answer srv req) :: answers (snd (answer srv req)) rest
  end.

(** The server after it has answered a sequence of requests. *)
Fixpoint served (srv : Server) (reqs : list Request) : Server :=
  match reqs with
  | [] => srv
  | req :: rest => served (snd (answer srv req)) rest
  end.

(** The replacements read from the edits of one file, up to the first
    edit without a range, each with the ends of its range in document
    order; the flag tells whether all edits were read. *)
Fixpoint readEdits (uri : string) (edits : list TextEdit) : list Replace * bool :=
  match edits with
  | [] => ([], true)
  | e :: rest =>
      match edit_range e with
      | Some r =>
          let '(l, complete) := readEdits uri rest in
          ({| replace_uri := uri; replace_range := inOrder r;
              replace_text := newText e |} :: l, complete)
      | None => ([], false)
      end
  end.

Fixpoint readChanges (entries : list (string * list TextEdit)) : list Replace * bool :=
  match entries with
  | [] => ([], true)
  | (uriStr, edits) :: rest =>
      let '(l, complete) := readEdits uriStr edits in
      if complete then
        let '(l', complete') := readChanges rest in (l ++ l', complete')
      else (l, false)
  end.

(** The changes a successful result carries. *)
Definition changesOf (r : result Response) : option (list (string * list TextEdit)) :=
  match r with
  | Ok (CommandObject c) => if success c then changes c else None
  | _ => None
  end.

(** The edits that one answer contributes to the workspace edit. *)
Definition contribution (r : result Response) : list Replace :=
  match changesOf r with
  | Some entries => fst (readChanges entries)
  | None => []
  end.

(** All the edits of a result have a range. *)
Definition wellFormed (r : result Response) : bool :=
  match changesOf r with
  | Some entries => snd (readChanges entries)
  | None => true
  end.

(** The lines that one answer adds to the output channel. *)
Definition linesOf (r : result Response) : list string :=
  match r with
  | Throw e => ["Elm file rename error: " +:+ e]
  | Ok (CommandObject c) =>
      if success c then
        if wellFormed r then [renamed_line c]
        else ["Elm file rename error: " +:+ missing_range]
      else []
  | Ok _ => []
  end.

(** The warnings that one answer makes the handler show. *)
Definition warningsOf (r : result Response) : list string :=
  match r with
  | Ok (CommandObject c) =>
      if success c then []
      else if truthy_string (error c) then ["Elm move/rename: " +:+ default "" (error c)]
      else []
  | _ => []
  end.

(** The state after a batch whose requests were [reqs]. *)
Definition afterBatch (reqs : list Request) (st : St) : St :=
  {| server := served (server st) reqs;
     sent := sent st ++ reqs;
     workspaceEdit := workspaceEdit st ++ flat_map contribution (answers (server st) reqs);
     channel := channel st ++ flat_map linesOf (answers (server st) reqs);
     warnings := warnings st ++ flat_map warningsOf (answers (server st) reqs) |}.

End Handler.

End Rename.

(** ** Reference annotator: [ElmReferencesCodeLensProvider] *)

Module CodeLens.

(** [vscode.SymbolKind], the members the provider names. *)
Module SymbolKind.
Definition Class : nat := 4.
Definition Enum : nat := 9.
Definition Interface : nat := 10.
Definition Function : nat := 11.
Definition Struct : nat := 22.
End SymbolKind.

Record Document : Type := { doc_uri : Uri; languageId : string }.

Inductive Argument : Type :=
| ArgUri (u : Uri)
| ArgPosition (p : Position).

(** A [vscode.Command]. *)
Record Command : Type := {
  title : string;
  command : string;
  arguments : option (list Argument)
}.

Record CodeLens : Type := { range : Range; lens_command : option Command }.

(** [{ title: '', command: '' }] *)
Definition emptyCommand : Command :=
  {| title := ""; command := ""; arguments := None |}.

Definition withCommand (c : Command) (codeLens : CodeLens) : CodeLens :=
  {| range := range codeLens; lens_command := Some c |}.

(** A label the user can activate: its command names an editor command. *)
Definition actionable (c : Command) : bool := negb (String.eqb (command c) "").

Section Provider.
Context {lsp : Client}.

(** What a call of the provider leaves behind: its value, the requests
    it sent, the lines it wrote to the output channel and the server. *)
Record Ran (A : Type) : Type := {
  value : A;
  requests : list Request;
  logged : list string;
  server_after : Server
}.
Arguments value {A}.
Arguments requests {A}.
Arguments logged {A}.
Arguments server_after {A}.

Definition wantsLens (symbol : SymbolInfo) : bool :=
  (kind symbol =? SymbolKind.Function)%nat ||
  (kind symbol =? SymbolKind.Class)%nat ||
  (kind symbol =? SymbolKind.Struct)%nat ||
  (kind symbol =? SymbolKind.Enum)%nat ||
  (kind symbol =? SymbolKind.Interface)%nat.

(** The loop over the symbols; reading [symbol.location.range] of an
    entry without a location throws. *)
Fixpoint lensesOf (symbols : list SymbolInfo) (codeLenses : list CodeLens)
  : result (list CodeLens) :=
  match symbols with
  | [] => Ok codeLenses
  | symbol :: rest =>
      if wantsLens symbol then
        match location symbol with
        | Some l =>
            let r := loc_range l in
            lensesOf rest
              (codeLenses ++
               [{| range := mkRange (line (range_start r)) (character (range_start r))
                                    (line (range_end r)) (character (range_end r));
                   lens_command := None |}])
        | None => Throw "TypeError: Cannot read properties of undefined (reading 'range')"
        end
      else lensesOf rest codeLenses
  end.

(** [Array.isArray(response) && response.length > 0 &&
    'location' in response[0]] *)
Definition flatSymbols (response : Response) : option (list SymbolInfo) :=
  match response with
  | SymbolArray (first :: rest) =>
      match location first with
      | Some _ => Some (first :: rest)
      | None => None
      end
  | _ => None
  end.

(** [provideCodeLenses(document)].  [client] tells whether the variable
    [client] holds a client, [enabled] is the [codeLens.references]
    option. *)
Definition provideCodeLenses (client enabled : bool) (document : Document) (srv : Server)
  : Ran (list CodeLens) :=
  if negb client || negb (String.eqb (languageId document) "elm") then
    {| value := []; requests := []; logged := []; server_after := srv |}
  else if negb enabled then
    {| value := []; requests := []; logged := []; server_after := srv |}
  else
    let req := DocumentSymbolRequest (toString (doc_uri document)) in
    let '(r, srv') := answer srv req in
    let attempt :=
      match r with
      | Ok Null => Ok []
      | Ok response =>
          match flatSymbols response with
          | Some symbols => lensesOf symbols []
          | None => Ok []
          end
      | Throw e => Throw e
      end in
    match attempt with
    | Ok codeLenses =>
        {| value := codeLenses; requests := [req]; logged := []; server_after := srv' |}
    | Throw e =>
        {| value := []; requests := [req]; logged := ["CodeLens error: " +:+ e];
           server_after := srv' |}
    end.

(** [references?.length ?? 0] *)
Definition referenceCount (response : Response) : nat :=
  match response with
  | Null => 0
  | LocationArray l => length l
  | SymbolArray l => length l
  | CommandObject _ => 0
  end.

(** The command built from the count, inside the [try] block. *)
Definition referencesCommand (document : Document) (codeLens : CodeLens) (count : nat)
  : Command :=
  let title := if (count =? 1)%nat then "1 reference"
               else string_of_nat count +:+ " references" in
  {| title := title;
     command := if (0 <? count)%nat then "editor.action.findReferences" else "";
     arguments :=
       if (0 <? count)%nat then
         Some [ArgUri (doc_uri document);
               ArgPosition {| line := line (range_start (range codeLens));
                              character := character (range_start (range codeLens)) |}]
       else None |}.

(** [resolveCodeLens(codeLens)].  [activeDocument] is
    [vscode.window.activeTextEditor?.document]. *)
Definition resolveCodeLens (client : bool) (activeDocument : option Document)
    (codeLens : CodeLens) (srv : Server) : Ran CodeLens :=
  if negb client then
    {| value := withCommand emptyCommand codeLens; requests := []; logged := [];
       server_after := srv |}
  else
    match activeDocument with
    | None =>
        {| value := withCommand emptyCommand codeLens; requests := []; logged := [];
           server_after := srv |}
    | Some document =>
        let req :=
          ReferencesRequest (toString (doc_uri document))
            {| line := line (range_start (range codeLens));
               character := character (range_start (range codeLens)) |}
            false in
        let '(r, srv') := answer srv req in
        let cmd :=
          match r with
          | Ok references =>
              referencesCommand document codeLens (referenceCount references)
          | Throw _ => emptyCommand
          end in
        {| value := withCommand cmd codeLens; requests := [req]; logged := [];
           server_after := srv' |}
    end.

End Provider.

Arguments value {lsp A}.
Arguments requests {lsp A}.
Arguments logged {lsp A}.
Arguments server_after {lsp A}.

End CodeLens.

(** ** Concrete collaborators, to run the extension on inputs *)

(** A client whose server answers from a script, one entry per request,
    and with [null] once the script is used up. *)
Definition replay : Client := {|
  Server := list (result Response);
  answer := fun script _ =>
    match script with
    | r :: rest => (r, rest)
    | [] => (Ok Null, [])
    end
|}.

(** A [file:] URI for an absolute POSIX path. *)
Definition file_uri (p : string) : Uri :=
  {| fsPath := p; toString := "file://" +:+ p |}.

(** A workspace with the single root [/proj]. *)
Definition proj_workspace (u : Uri) : option string :=
  if startsWith (fsPath u) "/proj/" then Some "/proj" else None.

(** A Linux host on which only the listed paths exist. *)
Definition linux_host (configured : option string) (present : list string) : Locator.Host :=
  {| Locator.server_path := configured;
     Locator.existsSync := fun p => existsb (String.eqb p) present;
     Locator.platform := "linux";
     Locator.globalStoragePath := "/home/u/.config/Code/User/globalStorage/elm-lsp";
     Locator.extensionPath := "/home/u/dev/vscode-elm-lsp" |}.

(** A Linux host with a configured server path, an installed binary and
    a sibling release build. *)
Definition configured_host : Locator.Host :=
  linux_host (Some "/opt/elm/elm_lsp")
    ["/opt/elm/elm_lsp";
     "/home/u/.config/Code/User/globalStorage/elm-lsp/elm_lsp";
     "/home/u/dev/elm-lsp-rust/target/release/elm_lsp"].

(** The asset URL and the destination of an install on Linux. *)
Definition asset_url : string :=
  "https://github.com/CharlonTank/elm-lsp-rust/releases/download/v0.1.5/elm_lsp-linux-x64".

Definition install_path : string :=
  "/home/u/.config/Code/User/globalStorage/elm-lsp/elm_lsp".

(** A move into a subdirectory, a rename in place, and a rename of a
    file that is no source file. *)
Definition move_Foo : Rename.FilePair :=
  {| Rename.oldUri := file_uri "/proj/src/Foo.elm";
     Rename.newUri := file_uri "/proj/src/Sub/Foo.elm" |}.

Definition rename_Foo : Rename.FilePair :=
  {| Rename.oldUri := file_uri "/proj/src/Foo.elm";
     Rename.newUri := file_uri "/proj/src/Bar.elm" |}.

Definition rename_notes : Rename.FilePair :=
  {| Rename.oldUri := file_uri "/proj/notes.txt";
     Rename.newUri := file_uri "/proj/NOTES.md" |}.

(** A successful result with one edit in one file. *)
Definition one_edit : CommandResult :=
  {| success := true;
     changes := Some [("file:///proj/src/Main.elm",
                       [{| edit_range := Some (wireRange 2 7 2 10); newText := "Bar" |}])];
     error := None;
     oldModuleName := "Foo";
     newModuleName := "Bar";
     filesUpdated := 1 |}.

(** The handler's state before a batch, with a server that fails on the
    first request and succeeds on the second. *)
Definition flaky_state : Rename.St (lsp := replay) :=
  {| Rename.server :=
       ([Throw "Error: server not ready"; Ok (CommandObject one_edit)] : @Server replay);
     Rename.sent := [];
     Rename.workspaceEdit := [];
     Rename.channel := [];
     Rename.warnings := [] |}.

(** Two open documents, and the flat symbol list of the first: one
    function declared at line 4. *)
Definition doc_A : CodeLens.Document :=
  {| CodeLens.doc_uri := file_uri "/proj/src/A.elm"; CodeLens.languageId := "elm" |}.

Definition doc_B : CodeLens.Document :=
  {| CodeLens.doc_uri := file_uri "/proj/src/B.elm"; CodeLens.languageId := "elm" |}.

Definition symbols_A : @Server replay :=
  [Ok (SymbolArray
         [{| name := "update"; kind := CodeLens.SymbolKind.Function;
             location := Some {| loc_uri := "file:///proj/src/A.elm";
                                 loc_range := wireRange 4 0 9 20 |} |}])].

(** The annotation of that function, before it is resolved. *)
Definition lens_update : CodeLens.CodeLens :=
  {| CodeLens.range := mkRange 4 0 9 20; CodeLens.lens_command := None |}.

(** A references response with three locations. *)
Definition three_references : @Server replay :=
  [Ok (LocationArray
         [{| loc_uri := "file:///proj/src/A.elm"; loc_range := wireRange 20 4 20 10 |};
          {| loc_uri := "file:///proj/src/B.elm"; loc_range := wireRange 3 8 3 14 |};
          {| loc_uri := "file:///proj/src/B.elm"; loc_range := wireRange 7 2 7 8 |}])].

(** A server that redirects the asset URL twice before it serves the
    binary. *)
Definition redirecting_server : Download.Network :=
  fun url =>
    if String.eqb url asset_url then
      Download.Response 302 "https://objects.example/one" ""
    else if String.eqb url "https://objects.example/one" then
      Download.Response 301 "https://objects.example/two" ""
    else if String.eqb url "https://objects.example/two" then
      Download.Response 200 "" "ELF binary"
    else
      Download.Response 404 "" "Not Found".

(** A server that redirects every URL to itself. *)
Definition looping_server : Download.Network :=
  fun url => Download.Response 302 url "".

(** A server that redirects the asset URL to a relative location, which
    [https.get] refuses. *)
Definition relative_redirect_server : Download.Network :=
  fun url =>
    if String.eqb url asset_url then
      Download.Response 302 "/releases/elm_lsp-linux-x64" ""
    else if String.eqb url "/releases/elm_lsp-linux-x64" then
      Download.Throws "TypeError: Invalid URL"
    else
      Download.Response 200 "" "ELF binary".

(** A server whose connection breaks in the middle of the body. *)
Definition breaking_server : Download.Network :=
  fun _ => Download.Truncated "ELF bin".

(** No string is a URL that [https.get] accepts. *)
Definition no_url : Download.Network :=
  fun _ => Download.Throws "TypeError: Invalid URL".

(** ** More of the installer: where a download lands *)

Module Transfer.

(** The URL at which the chain of redirects that starts at [url]
    ends, when at most [fuel] GETs reach it: the first whose GET is
    not answered by a 301 or 302. *)
Fixpoint landing (net : Download.Network) (fuel : nat) (url : string) : option string :=
  match fuel with
  | O => None
  | S fuel' =>
      match net url with
      | Download.Response statusCode location _ =>
          if (statusCode =? 302)%nat || (statusCode =? 301)%nat then
            landing net fuel' location
          else Some url
      | Download.Truncated _ => Some url
      | Download.RequestError _ => Some url
      | Download.Throws _ => Some url
      end
  end.

(** The answer is a redirect that [request] follows. *)
Definition redirects_to (ex : Download.Exchange) (next : string) : Prop :=
  exists statusCode body,
    ex = Download.Response statusCode next body /\
    (statusCode = 301 \/ statusCode = 302).

End Transfer.

(** ** The release fetcher and [downloadBinary] *)

Module Installer.

Record Asset : Type := { asset_name : string; browser_download_url : string }.

(** The value [fetchLatestRelease] promises. *)
Record ReleaseInfo : Type := { tag_name : string; assets : list Asset }.

(** What the GET on the releases endpoint leads to: the response ends
    with the collected [data], or the request emits ['error']. *)
Inductive ApiExchange : Type :=
| ApiBody (data : string)
| ApiError (err : string).

(** The disk: the files with their contents, the directories, and the
    permission bits set by [chmod]. *)
Record Disk : Type := {
  files : Download.FileSystem;
  dirs : gset string;
  modes : gmap string nat
}.

(** [fs.existsSync(p)] *)
Definition existsSync (d : Disk) (p : string) : bool :=
  match files d !! p with
  | Some _ => true
  | None => bool_decide (p ∈ dirs d)
  end.

(** [fs.mkdirSync(p, { recursive: true })]; the ancestors it may create
    are not tracked. *)
Definition mkdirSync (p : string) (d : Disk) : Disk :=
  {| files := files d; dirs := dirs d ∪ {[p]}; modes := modes d |}.

(** [fs.chmodSync(p, mode)] throws when there is no such file. *)
Definition chmodSync (p : string) (mode : nat) (d : Disk) : result Disk :=
  if existsSync d p then
    Ok {| files := files d; dirs := dirs d; modes := <[p := mode]> (modes d) |}
  else Throw ("ENOENT: no such file or directory, chmod '" +:+ p +:+ "'").

Definition with_files (fs : Download.FileSystem) (d : Disk) : Disk :=
  {| files := fs; dirs := dirs d; modes := modes d |}.

(** [0o755] *)
Definition rwxr_xr_x : nat := 493.

(** The first statement of [downloadBinary]: the storage directory is
    created when it is missing. *)
Definition prepared (h : Locator.Host) (d : Disk) : Disk :=
  if existsSync d (Locator.globalStoragePath h) then d
  else mkdirSync (Locator.globalStoragePath h) d.

(** How the promise of [downloadBinary] settles; [Unsettled] when the
    download is still following redirects. *)
Inductive Outcome : Type :=
| Installed (binaryPath : string)
| Failed (msg : string)
| Unsettled.

(** What a call of [downloadBinary] leaves behind: its outcome, the
    disk, the progress messages, whether the release was fetched, and
    the URLs handed to [downloadFile]. *)
Record Run : Type := {
  outcome : Outcome;
  disk : Disk;
  reports : list string;
  fetched : bool;
  downloads : list string
}.

Section WithEnvironment.
Context {path : PathApi}.

(** [JSON.parse], typed as the fetcher types its result; [None] when it
    throws. *)
Variable JSON_parse : string -> option ReleaseInfo.

Definition fetchLatestRelease (api : ApiExchange) : result ReleaseInfo :=
  match api with
  | ApiBody data =>
      match JSON_parse data with
      | Some release => Ok release
      | None => Throw "Failed to parse release info"
      end
  | ApiError err => Throw err
  end.

(** [`elm_lsp-${target}${process.platform === 'win32' ? '.exe' : ''}`] *)
Definition assetName (platform target : string) : string :=
  "elm_lsp-" +:+ target +:+ (if String.eqb platform "win32" then ".exe" else "").

Definition no_binary_found (target : string) (release : ReleaseInfo) : string :=
  "No binary found for " +:+ target +:+ ". Available: " +:+
  String.concat ", " (map asset_name (assets release)).

(** [downloadBinary(context)].  The host gives [process.platform] and
    the storage path, [arch] is [process.arch]; the file system is the
    disk [d]. *)
Definition downloadBinary (h : Locator.Host) (arch : string) (api : ApiExchange)
    (net : Download.Network) (fuel : nat) (d : Disk) : Run :=
  let storagePath := Locator.globalStoragePath h in
  let d := prepared h d in
  match Platform.getPlatformTarget (Locator.platform h) arch with
  | Throw e =>
      {| outcome := Failed e; disk := d; reports := []; fetched := false; downloads := [] |}
  | Ok target =>
      let binaryPath := path_join [storagePath; Locator.BINARY_NAME h] in
      let fetching := ["Fetching latest release..."] in
      match fetchLatestRelease api with
      | Throw e =>
          {| outcome := Failed e; disk := d; reports := fetching;
             fetched := true; downloads := [] |}
      | Ok releaseInfo =>
          match List.find
                  (fun a => String.eqb (asset_name a) (assetName (Locator.platform h) target))
                  (assets releaseInfo) with
          | None =>
              {| outcome := Failed (no_binary_found target releaseInfo); disk := d;
                 reports := fetching; fetched := true; downloads := [] |}
          | Some asset =>
              let reports :=
                fetching ++ ["Downloading " +:+ tag_name releaseInfo +:+ "..."] in
              let url := browser_download_url asset in
              match Download.downloadFile net fuel url binaryPath (files d) with
              | (fs, Download.Resolved) =>
                  let d := with_files fs d in
                  if negb (String.eqb (Locator.platform h) "win32") then
                    match chmodSync binaryPath rwxr_xr_x d with
                    | Ok d' =>
                        {| outcome := Installed binaryPath; disk := d'; reports := reports;
                           fetched := true; downloads := [url] |}
                    | Throw e =>
                        {| outcome := Failed e; disk := d; reports := reports;
                           fetched := true; downloads := [url] |}
                    end
                  else
                    {| outcome := Installed binaryPath; disk := d; reports := reports;
                       fetched := true; downloads := [url] |}
              | (fs, Download.Rejected e) =>
                  {| outcome := Failed e; disk := with_files fs d; reports := reports;
                     fetched := true; downloads := [url] |}
              | (fs, Download.Pending) =>
                  {| outcome := Unsettled; disk := with_files fs d; reports := reports;
                     fetched := true; downloads := [url] |}
              end
          end
      end
  end.

End WithEnvironment.

(** The install gave up with [msg] before any download: no URL was
    requested, and the files and permission bits are as they were on
    [d]. *)
Definition gave_up (r : Run) (d : Disk) (msg : string) : Prop :=
  outcome r = Failed msg /\
  downloads r = [] /\
  files (disk r) = files d /\
  modes (disk r) = modes d.

(** The host [h] with its file system read from the disk. *)
Definition on_disk (d : Disk) (h : Locator.Host) : Locator.Host :=
  {| Locator.server_path := Locator.server_path h;
     Locator.existsSync := existsSync d;
     Locator.platform := Locator.platform h;
     Locator.globalStoragePath := Locator.globalStoragePath h;
     Locator.extensionPath := Locator.extensionPath h |}.

End Installer.

(** ** Activation and deactivation *)

Module Activation.

(** [`${e}`] for an [Error] whose message is [e]. *)
Definition printed (e : string) : string := "Error: " +:+ e.

(** The user's answer to "Elm LSP binary not found. Download from
    GitHub?". *)
Inductive Choice : Type :=
| ChooseDownload
| ChooseConfigurePath
| Dismiss.

(** What [activate] pushes on [context.subscriptions]. *)
Inductive Subscription : Type :=
| CodeLensProviderRegistration
| OnDidChangeTextDocument
| OnWillRenameFiles
| RestartServerCommand
| MoveFunctionCommand
| GenerateErdCommand.

(** The extension after [activate]: the supervisor's world, the
    subscriptions, the error messages shown, whether the user was asked
    about a download, and the settings pages opened. *)
Record Extension : Type := {
  world : Restart.World;
  subscriptions : list Subscription;
  errorMessages : list string;
  prompted : bool;
  settingsOpened : list string
}.

(** The world before [activate]. *)
Definition fresh : Restart.World :=
  {| Restart.client := None; Restart.isRestarting := false; Restart.live := ∅;
     Restart.created := 0; Restart.notices := []; Restart.calls := [] |}.

(** The second half of [activate], from [startLanguageClient] on;
    [started] is how [client.start()] settles. *)
Definition launch (serverPath : string) (started : result unit) (asked : bool)
    (w : Restart.World) : Extension :=
  let c := Restart.created w in
  let w := fst (Restart.startLanguageClient serverPath w) in
  match started with
  | Ok _ =>
      let w := Restart.set_live (Restart.live w ∪ {[c]}) w in
      {| world := Restart.notify (Restart.InformationMessage "Elm LSP started") w;
         subscriptions :=
           [CodeLensProviderRegistration; OnDidChangeTextDocument; OnWillRenameFiles;
            RestartServerCommand; MoveFunctionCommand; GenerateErdCommand];
         errorMessages := [];
         prompted := asked;
         settingsOpened := [] |}
  | Throw e =>
      {| world := w; subscriptions := [];
         errorMessages := ["Failed to start Elm LSP: " +:+ printed e];
         prompted := asked; settingsOpened := [] |}
  end.

(** [activate(context)].  [found] is what [findServerBinary] returned,
    [choice] the user's answer if asked, [downloaded] how
    [downloadBinary] settles if called, [started] how [client.start()]
    settles if called. *)
Definition activate (found : option string) (choice : Choice)
    (downloaded : result string) (started : result unit) (w : Restart.World) : Extension :=
  if truthy_string found then launch (default "" found) started false w
  else
    match choice with
    | ChooseDownload =>
        match downloaded with
        | Ok serverPath => launch serverPath started true w
        | Throw e =>
            {| world := w; subscriptions := [];
               errorMessages := ["Failed to download: " +:+ printed e];
               prompted := true; settingsOpened := [] |}
        end
    | ChooseConfigurePath =>
        {| world := w; subscriptions := []; errorMessages := [];
           prompted := true; settingsOpened := ["elm-lsp.server.path"] |}
    | Dismiss =>
        {| world := w; subscriptions := []; errorMessages := [];
           prompted := true; settingsOpened := [] |}
    end.

(** The supervisor's system once [activate] has returned: no restart is
    in flight. *)
Definition system_of (ext : Extension) : Restart.System :=
  {| Restart.world := world ext; Restart.tasks := [] |}.

(** [deactivate()]; [stopped] is how [client.stop()] settles if
    called. *)
Definition deactivate (stopped : result unit) (w : Restart.World)
  : Restart.World * result unit :=
  match Restart.client w with
  | Some c =>
      let w := Restart.record_call (Restart.CallStop c) w in
      match stopped with
      | Ok _ => (Restart.set_live (Restart.live w ∖ {[c]}) w, Ok tt)
      | Throw e => (w, Throw e)
      end
  | None => (w, Ok tt)
  end.

End Activation.

(** ** The editor commands [elm-lsp.moveFunction] and [elm-lsp.generateErd] *)

Module Commands.

(** An argument of [workspace/executeCommand]. *)
Inductive Json : Type :=
| JString (s : string)
| JNumber (n : nat).


(** A document opened by [openTextDocument] and shown by
    [showTextDocument]. *)
Record Opened : Type := { content : string; language : string }.

(** What a command leaves behind: the [executeCommand] request it sent,
    the messages shown, whether the input box was shown, and the
    documents opened. *)
Record Ran : Type := {
  request : option (string * list Json);
  warningMessages : list string;
  errorMessages : list string;
  asked : bool;
  opened : list Opened
}.






End Commands.

(** ** The annotations of a flat symbol list *)


Definition located (symbol : SymbolInfo) : bool :=
  match location symbol with Some _ => true | None => false end.


(** Every symbol of an annotated kind carries a location. *)
Definition wellLocated (symbols : list SymbolInfo) : bool :=
  forallb (fun symbol => implb (CodeLens.wantsLens symbol) (located symbol)) symbols.

(** A flat symbol list with three entries for [A.elm]; the kind
    numbers are those of [vscode.SymbolKind]'s [Enum] and [Function],
    and 12, which the provider does not name. *)
Definition outline_A : list SymbolInfo :=
  [{| name := "Msg"; kind := CodeLens.SymbolKind.Enum;
      location := Some {| loc_uri := "file:///proj/src/A.elm";
                          loc_range := wireRange 1 0 3 12 |} |};
   {| name := "update"; kind := CodeLens.SymbolKind.Function;
      location := Some {| loc_uri := "file:///proj/src/A.elm";
                          loc_range := wireRange 4 0 9 20 |} |};
   {| name := "counter"; kind := 12;
      location := Some {| loc_uri := "file:///proj/src/A.elm";
                          loc_range := wireRange 11 0 11 30 |} |}].

(** The same list, where the function lost its location. *)
Definition outline_A_broken : list SymbolInfo :=
  [{| name := "Msg"; kind := CodeLens.SymbolKind.Enum;
      location := Some {| loc_uri := "file:///proj/src/A.elm";
                          loc_range := wireRange 1 0 3 12 |} |};
   {| name := "update"; kind := CodeLens.SymbolKind.Function; location := None |}].

(** Servers that answer the document-symbol request with the two lists,
    and one that fails. *)
Definition serves_outline_A : @Server replay := [Ok (SymbolArray outline_A)].

Definition serves_outline_A_broken : @Server replay := [Ok (SymbolArray outline_A_broken)].

Definition failing_server : @Server replay := [Throw "Error: connection is disposed"].

(** A hierarchical symbol list: its entries carry no [location]. *)
Definition serves_hierarchy : @Server replay :=
  [Ok (SymbolArray
         [{| name := "Main"; kind := 1; location := None |};
          {| name := "update"; kind := CodeLens.SymbolKind.Function;
             location := Some {| loc_uri := "file:///proj/src/A.elm";
                                 loc_range := wireRange 4 0 9 20 |} |}])].

(** A document that is not Elm. *)
Definition doc_readme : CodeLens.Document :=
  {| CodeLens.doc_uri := file_uri "/proj/README.md"; CodeLens.languageId := "markdown" |}.

(** A release with binaries for three targets, and what the API returns
    for it; the parser knows this one body. *)
Definition release_v015 : Installer.ReleaseInfo :=
  {| Installer.tag_name := "v0.1.5";
     Installer.assets :=
       [{| Installer.asset_name := "elm_lsp-darwin-arm64";
           Installer.browser_download_url := "https://objects.example/darwin-arm64" |};
        {| Installer.asset_name := "elm_lsp-linux-x64";
           Installer.browser_download_url := asset_url |};
        {| Installer.asset_name := "elm_lsp-win32-x64.exe";
           Installer.browser_download_url := "https://objects.example/win32-x64.exe" |}] |}.

Definition parse_v015 (data : string) : option Installer.ReleaseInfo :=
  if String.eqb data "{ release v0.1.5 }" then Some release_v015 else None.

(** A Linux host with nothing configured, a FreeBSD host, and an empty
    disk. *)
Definition bare_linux : Locator.Host := linux_host None [].

Definition bare_freebsd : Locator.Host :=
  {| Locator.server_path := None;
     Locator.existsSync := fun _ => false;
     Locator.platform := "freebsd";
     Locator.globalStoragePath := "/home/u/.config/Code/User/globalStorage/elm-lsp";
     Locator.extensionPath := "/home/u/dev/vscode-elm-lsp" |}.

Definition empty_disk : Installer.Disk :=
  {| Installer.files := ∅; Installer.dirs := ∅; Installer.modes := ∅ |}.

(** Everything [activate] registers, in the order it does. *)
Definition all_subscriptions : list Activation.Subscription :=
  [Activation.CodeLensProviderRegistration; Activation.OnDidChangeTextDocument;
   Activation.OnWillRenameFiles; Activation.RestartServerCommand;
   Activation.MoveFunctionCommand; Activation.GenerateErdCommand].

(** [activate] gets to start a client: a server path was found, or the
    user chose the download and it resolved. *)
Definition has_server_path (found : option string) (choice : Activation.Choice)
    (downloaded : result string) : bool :=
  truthy_string found ||
  match choice, downloaded with
  | Activation.ChooseDownload, Ok _ => true
  | _, _ => false
  end.




(** A successful result whose edit has its range written end first, and
    the handler's state before a batch that this result answers. *)
Definition backward_edit : CommandResult :=
  {| success := true;
     changes := Some [("file:///proj/src/Main.elm",
                       [{| edit_range := Some (wireRange 2 10 2 7); newText := "Bar" |}])];
     error := None;
     oldModuleName := "Foo";
     newModuleName := "Bar";
     filesUpdated := 1 |}.

Definition backward_state : Rename.St (lsp := replay) :=
  {| Rename.server :=
       ([Throw "Error: server not ready"; Ok (CommandObject backward_edit)] : @Server replay);
     Rename.sent := [];
     Rename.workspaceEdit := [];
     Rename.channel := [];
     Rename.warnings := [] |}.


(** * Verification *)

(** ** Platform resolver *)

Section PlatformFacts.
Import Platform.

Lemma getPlatformTarget_os platform arch :
  getPlatformTarget platform arch =
    if supported_os platform then
      Ok (if String.eqb platform "darwin" then
            if String.eqb arch "arm64" then "darwin-arm64" else "darwin-x64"
          else platform +:+ "-x64")
    else Throw ("Unsupported platform: " +:+ platform +:+ "-" +:+ arch).
Proof.
  unfold getPlatformTarget, supported_os; simpl.
  destruct (String.eqb_spec platform "darwin") as [->|_]; [reflexivity|].
  destruct (String.eqb_spec platform "linux") as [->|_]; [reflexivity|].
  destruct (String.eqb_spec platform "win32") as [->|_]; reflexivity.
Qed.

(** Peel one character off a string equation [p +:+ rest = literal]. *)
Ltac peel p H :=
  destruct p as [|? p]; simpl in H;
  [ try discriminate H | try discriminate H; injection H as -> H ].

Lemma supported_pair_inv platform arch :
  supported_pair platform arch = true ->
  (platform = "darwin" /\ arch = "arm64") \/
  (platform = "darwin" /\ arch = "x64") \/
  (platform = "linux" /\ arch = "x64") \/
  (platform = "win32" /\ arch = "x64").
Proof.
  unfold supported_pair, is_canonical, canonical_targets; simpl.
  rewrite !orb_true_iff.
  intros [H|[H|[H|[H|H]]]]; try discriminate H;
    apply String.eqb_eq in H;
    do 13 (try peel platform H);
    try (injection H as <-); tauto.
Qed.

End PlatformFacts.

(** C1, as stated, fails: on Linux with an arm64 processor the pair is
    not one the canonical targets name, yet [getPlatformTarget] returns
    [linux-x64] instead of throwing. *)
Lemma getPlatformTarget_defaults_to_x64 :
  ~ (forall platform arch,
       (Platform.returns_canonical platform arch <->
        Platform.supported_pair platform arch = true) /\
       (Platform.supported_pair platform arch = false ->
        Platform.throws platform arch)).
Proof.
  intros claim.
  destruct (claim "linux" "arm64") as [_ must_throw].
  destruct (must_throw eq_refl) as [msg Hmsg].
  discriminate Hmsg.
Qed.

(** C1, amended: [getPlatformTarget] returns one of the four canonical
    targets exactly when the operating system is darwin, linux or win32,
    whatever the architecture: [darwin-arm64] for darwin with arm64,
    [darwin-x64] for darwin with any other architecture, [linux-x64]
    for linux and [win32-x64] for win32 with every architecture.  It
    throws "Unsupported platform: <os>-<arch>" exactly for every other
    operating system.  On the pairs that the canonical targets name it
    returns the target of the pair. *)
Theorem getPlatformTarget_by_os platform arch :
  (Platform.returns_canonical platform arch <-> Platform.supported_os platform = true) /\
  (Platform.getPlatformTarget platform arch =
     Throw ("Unsupported platform: " +:+ platform +:+ "-" +:+ arch)
   <-> Platform.supported_os platform = false) /\
  (Platform.supported_pair platform arch = true ->
   Platform.getPlatformTarget platform arch = Ok (platform +:+ "-" +:+ arch)) /\
  (platform = "darwin" -> arch = "arm64" ->
   Platform.getPlatformTarget platform arch = Ok "darwin-arm64") /\
  (platform = "darwin" -> arch <> "arm64" ->
   Platform.getPlatformTarget platform arch = Ok "darwin-x64") /\
  (platform = "linux" ->
   Platform.getPlatformTarget platform arch = Ok "linux-x64") /\
  (platform = "win32" ->
   Platform.getPlatformTarget platform arch = Ok "win32-x64") /\
  (platform <> "darwin" -> platform <> "linux" -> platform <> "win32" ->
   Platform.getPlatformTarget platform arch =
     Throw ("Unsupported platform: " +:+ platform +:+ "-" +:+ arch)).
Proof.
  split; [|split; [|split; [|split; [|split; [|split; [|split]]]]]].
  - unfold Platform.returns_canonical.
    rewrite getPlatformTarget_os.
    destruct (Platform.supported_os platform) eqn:Hos.
    + split; [reflexivity|]. intros _.
      eexists; split; [reflexivity|].
      unfold Platform.supported_os in Hos; simpl in Hos.
      destruct (String.eqb_spec platform "darwin") as [->|_].
      * destruct (String.eqb arch "arm64"); reflexivity.
      * destruct (String.eqb_spec platform "linux") as [->|_]; [reflexivity|].
        destruct (String.eqb_spec platform "win32") as [->|_]; [reflexivity|].
        discriminate Hos.
    + split; [|discriminate]. intros [t [Ht _]]. discriminate Ht.
  - rewrite getPlatformTarget_os.
    destruct (Platform.supported_os platform); split; congruence.
  - intros Hpair.
    destruct (supported_pair_inv _ _ Hpair) as [[-> ->]|[[-> ->]|[[-> ->]|[-> ->]]]];
      reflexivity.
  - intros -> ->. reflexivity.
  - intros -> Harch. apply String.eqb_neq in Harch.
    unfold Platform.getPlatformTarget. simpl. rewrite Harch. reflexivity.
  - intros ->. reflexivity.
  - intros ->. reflexivity.
  - intros Hdarwin Hlinux Hwin32. apply String.eqb_neq in Hdarwin, Hlinux, Hwin32.
    unfold Platform.getPlatformTarget. rewrite Hdarwin, Hlinux, Hwin32. reflexivity.
Qed.

Lemma getPlatformTarget_by_os_witness :
  Platform.supported_pair "darwin" "arm64" = true /\
  Platform.getPlatformTarget "darwin" "arm64" = Ok "darwin-arm64" /\
  Platform.getPlatformTarget "linux" "arm64" = Ok "linux-x64" /\
  Platform.getPlatformTarget "darwin" "ppc64" = Ok "darwin-x64" /\
  Platform.getPlatformTarget "freebsd" "x64" = Throw "Unsupported platform: freebsd-x64".
Proof.
  split; [reflexivity|]. split; [|split; [|split]]; cycle 3.
  { apply (proj2 (proj2 (proj2 (proj2 (proj2 (proj2 (proj2
             (getPlatformTarget_by_os "freebsd" "x64")))))))); discriminate. }
  - apply (proj1 (proj2 (proj2 (getPlatformTarget_by_os "darwin" "arm64")))).
    reflexivity.
  - apply (proj1 (proj2 (proj2 (proj2 (proj2 (proj2
             (getPlatformTarget_by_os "linux" "arm64"))))))).
    reflexivity.
  - apply (proj1 (proj2 (proj2 (proj2 (proj2
             (getPlatformTarget_by_os "darwin" "ppc64")))))); [reflexivity|discriminate].
Defined.

(** ** Binary locator *)

Section LocatorFacts.
Context {path : PathApi}.
Import Locator.

(** The configured path is usable when the option is set to a non-empty
    path that exists. *)
Lemma config_usable_iff (h : Host) :
  config_usable h = true <->
  exists p, server_path h = Some p /\ p <> "" /\ existsSync h p = true.
Proof.
  unfold config_usable, truthy_string.
  destruct (server_path h) as [p|].
  - rewrite andb_true_iff, negb_true_iff, String.eqb_neq. split.
    + intros [Hne Hex]. exists p. auto.
    + intros [q [[= <-] [Hne Hex]]]. auto.
  - split; [discriminate|]. intros [q [[=] _]].
Qed.


End LocatorFacts.


(** ** Binary installer *)

Section DownloadFacts.
Import Download.

(** One GET, as [downloadFile] sees it. *)
Lemma downloadFile_first net fuel url dest (fs : FileSystem) :
  downloadFile net (S fuel) url dest fs =
    let fs0 := createWriteStream dest fs in
    match net url with
    | Response statusCode location body =>
        if (statusCode =? 302)%nat || (statusCode =? 301)%nat then
          match request net fuel location dest fs0 with
          | (fs', Ok settled) => (fs', settled)
          | (fs', Throw _) => (fs', Pending)
          end
        else if negb (statusCode =? 200)%nat then
          (fs0, Rejected ("Download failed: " +:+ string_of_nat statusCode))
        else (pipe dest body fs0, Resolved)
    | Truncated partial => (pipe dest partial fs0, Pending)
    | RequestError err => (unlink dest fs0, Rejected err)
    | Throws err => (fs0, Rejected err)
    end.
Proof.
  unfold downloadFile. simpl. destruct (net url) as [code loc body|partial|err|err];
    try reflexivity.
  destruct ((code =? 302)%nat || (code =? 301)%nat).
  - destruct (request net fuel loc dest _) as [fs' [settled|e]]; reflexivity.
  - destruct (negb (code =? 200)%nat); reflexivity.
Qed.

(** Every way a call of [request] can lead to a rejection: a request
    failed and the destination was unlinked, or a response carried a
    status that is neither a redirect nor 200 and the file system was
    left as it was. *)
Lemma request_rejected net fuel url dest (fs fs' : FileSystem) msg :
  request net fuel url dest fs = (fs', Ok (Rejected msg)) ->
  fs' = unlink dest fs \/
  (fs' = fs /\ exists code, msg = "Download failed: " +:+ string_of_nat code /\
                            code <> 200 /\ code <> 301 /\ code <> 302).
Proof.
  revert url. induction fuel as [|fuel IH]; intros url; simpl; [discriminate|].
  destruct (net url) as [code loc body|partial|err|err]; try discriminate.
  - destruct ((code =? 302)%nat || (code =? 301)%nat) eqn:Hred.
    + destruct (request net fuel loc dest fs) as [fs1 [settled|e]] eqn:Hreq;
        [|discriminate].
      intros [= <- ->]. apply (IH _ Hreq).
    + apply orb_false_iff in Hred as [H302 H301].
      apply Nat.eqb_neq in H302, H301.
      destruct (Nat.eqb_spec code 200) as [->|H200]; simpl; [discriminate|].
      intros [= <- <-]. right. split; [reflexivity|]. exists code. auto.
  - intros [= <- <-]. left. reflexivity.
Qed.

(** The sibling path: when the request itself fails, no file is left at
    the destination. *)
Lemma downloadFile_request_error_unlinks net fuel url dest (fs : FileSystem) err :
  net url = RequestError err ->
  downloadFile net (S fuel) url dest fs = (unlink dest (createWriteStream dest fs), Rejected err) /\
  fst (downloadFile net (S fuel) url dest fs) !! dest = None.
Proof.
  intros Hnet. rewrite downloadFile_first, Hnet. split; [reflexivity|].
  simpl. unfold unlink. apply lookup_delete_eq.
Qed.

(** A rejection by status leaves the file that [createWriteStream]
    made, empty, whatever was there before. *)
Lemma downloadFile_status_leaves_file net fuel url dest (fs : FileSystem) code loc body :
  net url = Response code loc body ->
  code <> 200 -> code <> 301 -> code <> 302 ->
  downloadFile net (S fuel) url dest fs =
    (createWriteStream dest fs, Rejected ("Download failed: " +:+ string_of_nat code)) /\
  fst (downloadFile net (S fuel) url dest fs) !! dest = Some "".
Proof.
  intros Hnet H200 H301 H302. rewrite downloadFile_first, Hnet.
  destruct (Nat.eqb_spec code 302) as [?|_]; [contradiction|].
  destruct (Nat.eqb_spec code 301) as [?|_]; [contradiction|].
  destruct (Nat.eqb_spec code 200) as [?|_]; [contradiction|].
  simpl. split; [reflexivity|]. unfold createWriteStream. apply lookup_insert_eq.
Qed.

End DownloadFacts.

(** C2 does not hold of the code.  When the server answers the GET with
    404, [downloadFile] rejects with "Download failed: 404" and the file
    that [createWriteStream] opened is still at the destination, empty;
    an installed binary that was there before has been truncated. *)
Theorem downloadFile_404_leaves_file :
  Download.downloadFile Download.not_found_server 8 asset_url install_path
    {[ install_path := "previous binary" ]}
  = (<[ install_path := "" ]> {[ install_path := "previous binary" ]},
     Download.Rejected "Download failed: 404") /\
  Download.failed
    (Download.downloadFile Download.not_found_server 8 asset_url install_path
       {[ install_path := "previous binary" ]}) = true /\
  fst (Download.downloadFile Download.not_found_server 8 asset_url install_path
         {[ install_path := "previous binary" ]}) !! install_path = Some "".
Proof.
  split; [reflexivity|]. split; [reflexivity|].
  apply (proj2 (downloadFile_status_leaves_file Download.not_found_server 7
                  asset_url install_path _ 404 "" "Not Found" eq_refl
                  ltac:(discriminate) ltac:(discriminate) ltac:(discriminate))).
Qed.

(** ** Server supervisor *)

Section RestartFacts.
Import Restart.

Lemma quiescent_invariant sys : quiescent sys -> invariant sys.
Proof.
  intros (Hflag & Htasks & Hlive). split; [exact Hlive|].
  rewrite Htasks. exact Hflag.
Qed.

Lemma only_client_live (X : gset nat) (o : option nat) :
  (forall c, c ∈ X -> o = Some c) -> size X <= 1.
Proof.
  intros H.
  destruct (decide (X = ∅)) as [->|Hne]; [rewrite size_empty; lia|].
  apply set_choose_L in Hne as [c Hc].
  assert (X = {[c]}) as ->.
  { apply set_eq. intros d. rewrite elem_of_singleton. split.
    - intros Hd. apply H in Hd, Hc. congruence.
    - intros ->. exact Hc. }
  rewrite size_singleton. lia.
Qed.

Lemma no_client_none_live (X : gset nat) :
  (forall c, c ∈ X -> None = Some c) -> X = ∅.
Proof.
  intros H. apply set_eq. intros c. split; [|set_solver].
  intros Hc. apply H in Hc. discriminate.
Qed.

Lemma stopped_none_live (X : gset nat) c :
  (forall d, d ∈ X -> Some c = Some d) -> X ∖ {[c]} = ∅.
Proof.
  intros H. apply set_eq. intros d. split; [|set_solver].
  intros Hd. apply elem_of_difference in Hd as [Hd Hne].
  apply H in Hd. injection Hd as Heq. subst d. set_solver.
Qed.

(** The handler's first segment keeps the invariant. *)
Lemma invariant_invoke sys sys' :
  invariant sys -> step sys Invoke = Some sys' -> invariant sys'.
Proof.
  intros [Hlive Htasks]. unfold step, restart_enter, call_find.
  destruct (isRestarting (world sys)) eqn:Hflag.
  - intros [= <-]. split; [exact Hlive|]. simpl.
    destruct (tasks sys) as [|pc [|? ?]]; [discriminate| |contradiction].
    destruct Htasks as [_ Hpc]. split; [exact Hflag|]. destruct pc; exact Hpc.
  - destruct (tasks sys) as [|pc [|? ?]] eqn:Ht;
      [|destruct Htasks; congruence|contradiction].
    simpl. destruct (client (world sys)) as [c|] eqn:Hc; simpl;
      intros [= <-]; (split; [simpl; rewrite ?Hc; exact Hlive|]); simpl;
      rewrite ?Ht; simpl; split; auto.
    apply no_client_none_live. exact Hlive.
Qed.

(** So does every later segment. *)
Lemma invariant_settles sys i s sys' :
  invariant sys -> step sys (Settles i s) = Some sys' -> invariant sys'.
Proof.
  intros [Hlive Htasks]. unfold step.
  destruct (tasks sys) as [|pc [|? ?]] eqn:Ht; [discriminate| |contradiction].
  destruct i as [|i]; [simpl|destruct i; discriminate].
  destruct Htasks as [Hflag Hpc].
  destruct pc as [c| |c], s as [[[]|e]|[newPath|e]|[[]|e]]; simpl; try discriminate.
  - (* the old client stopped *)
    intros [= <-]. simpl in *. split; simpl.
    + rewrite stopped_none_live; [set_solver|]. rewrite <- Hpc. exact Hlive.
    + split; [exact Hflag|]. apply stopped_none_live. rewrite <- Hpc. exact Hlive.
  - intros [= <-]. split; [exact Hlive|reflexivity].
  - (* the binary was looked up *)
    simpl in Hpc.
    destruct (truthy_string newPath); intros [= <-]; simpl.
    + split; simpl; [rewrite Hpc; set_solver|]. auto.
    + split; [exact Hlive|reflexivity].
  - intros [= <-]. split; [exact Hlive|reflexivity].
  - (* the new client started *)
    destruct Hpc as [Hclient Hnone]. intros [= <-]. split; simpl; [|reflexivity].
    rewrite Hnone, Hclient. intros d. rewrite elem_of_union, elem_of_singleton, elem_of_empty.
    intros [[]| ->]. reflexivity.
  - intros [= <-]. split; [exact Hlive|reflexivity].
Qed.

Lemma invariant_step sys e sys' :
  invariant sys -> step sys e = Some sys' -> invariant sys'.
Proof.
  destruct e; [apply invariant_invoke|apply invariant_settles].
Qed.

Lemma invariant_run es : forall sys sys',
  invariant sys -> run sys es = Some sys' -> invariant sys'.
Proof.
  induction es as [|e es IH]; intros sys sys' Hinv; simpl.
  - intros [= <-]. exact Hinv.
  - destruct (step sys e) as [sys1|] eqn:Hstep; [|discriminate].
    apply IH. eapply invariant_step; eauto.
Qed.

Lemma invariant_connections sys : invariant sys -> connections sys <= 1.
Proof. intros [Hlive _]. eapply only_client_live, Hlive. Qed.

Lemma invariant_tasks sys : invariant sys -> length (tasks sys) <= 1.
Proof.
  intros [_ Ht]. destruct (tasks sys) as [|pc [|? ?]]; simpl; [lia|lia|contradiction].
Qed.

Lemma invariant_flag sys :
  invariant sys -> (isRestarting (world sys) = true <-> tasks sys <> []).
Proof.
  intros [_ Ht]. destruct (tasks sys) as [|pc [|? ?]]; [| |contradiction].
  - rewrite Ht. split; [discriminate|congruence].
  - destruct Ht as [-> _]. split; [discriminate|reflexivity].
Qed.

(** A handler that runs to its end has gone through [finally]. *)
Lemma finished_resets_flag w pc s w' status :
  restart_resume w pc s = Some (w', status) ->
  finished status = true ->
  isRestarting w' = false.
Proof.
  destruct pc as [c| |c], s as [[[]|e]|[newPath|e]|[[]|e]]; simpl;
    try discriminate;
    try (destruct (truthy_string newPath));
    intros [= <- <-]; simpl; intros Hfin;
    solve [reflexivity | discriminate Hfin].
Qed.

End RestartFacts.

Lemma activated_quiescent : Restart.quiescent Restart.activated.
Proof.
  split; [reflexivity|]. split; [reflexivity|].
  simpl. intros c Hc. apply elem_of_singleton in Hc. congruence.
Qed.

(** What a request does when it arrives while the flag is up: the
    warning is shown and nothing else changes. *)
Lemma restart_enter_rejected w :
  Restart.isRestarting w = true ->
  Restart.restart_enter w =
    (Restart.notify (Restart.WarningMessage "Elm LSP is already restarting...") w,
     Restart.Returned).
Proof. intros H. unfold Restart.restart_enter. rewrite H. reflexivity. Qed.

(** What a request does when the flag is down: it raises the flag and
    suspends at its first [await], without any notice. *)
Lemma restart_enter_accepted w :
  Restart.isRestarting w = false ->
  exists pc,
    snd (Restart.restart_enter w) = Restart.Suspended pc /\
    Restart.isRestarting (fst (Restart.restart_enter w)) = true /\
    Restart.notices (fst (Restart.restart_enter w)) = Restart.notices w.
Proof.
  intros H. unfold Restart.restart_enter, Restart.call_find. rewrite H. simpl.
  destruct (Restart.client w); eexists; repeat split.
Qed.

(** How many connections are up when an invocation runs to its end. *)
Lemma connections_at_completion sys i s sys' :
  Restart.invariant sys ->
  Restart.step sys (Restart.Settles i s) = Some sys' ->
  Restart.tasks sys' = [] ->
  match s with
  | Restart.StartSettled (Ok _) => Restart.connections sys' = 1
  | Restart.FindSettled (Ok _) => Restart.connections sys' = 0
  | _ => Restart.connections sys' <= 1
  end.
Proof.
  intros Hinv Hstep Hdone.
  pose proof (invariant_connections _ (invariant_settles _ _ _ _ Hinv Hstep)) as Hle.
  destruct Hinv as [Hlive Htasks]. unfold Restart.step in Hstep.
  destruct (Restart.tasks sys) as [|pc [|? ?]] eqn:Ht; [discriminate| |contradiction].
  destruct i as [|i]; [simpl in Hstep|destruct i; discriminate].
  destruct Htasks as [Hflag Hpc].
  destruct pc as [c| |c], s as [[[]|e]|[newPath|e]|[[]|e]]; simpl in Hstep;
    try discriminate; try exact Hle.
  - simpl in Hpc. destruct (truthy_string newPath);
      injection Hstep as <-; [discriminate Hdone|].
    unfold Restart.connections. simpl. rewrite Hpc. apply size_empty.
  - destruct Hpc as [_ Hnone]. injection Hstep as <-.
    unfold Restart.connections. simpl. rewrite Hnone, union_empty_l_L.
    apply size_singleton.
Qed.

(** C3, as stated, fails in its last part: when no server binary is
    found, the restart stops the old client, starts nothing, and
    completes with no connection. *)
Lemma restart_without_binary_no_connection :
  ~ (forall sys0 es sys i s sys',
       Restart.quiescent sys0 ->
       Restart.connections sys0 = 1 ->
       Restart.run sys0 es = Some sys ->
       Restart.step sys (Restart.Settles i s) = Some sys' ->
       Restart.tasks sys' = [] ->
       Restart.connections sys' = 1).
Proof.
  intros claim.
  specialize (claim Restart.activated
                [Restart.Invoke; Restart.Settles 0 (Restart.StopSettled (Ok tt))]
                _ 0 (Restart.FindSettled (Ok None)) _
                activated_quiescent (size_singleton 0) eq_refl eq_refl eq_refl).
  vm_compute in claim. discriminate claim.
Qed.

(** C3, amended: a restart request that arrives while another restart is
    in flight is rejected with the "already restarting" notice and makes
    no call: no stop, no lookup of the binary, no start.  At most one
    restart is ever in flight and at most one connection is ever up.
    When a restart completes by a successful start exactly one
    connection exists; when it completes because no server binary was
    found, none exists. *)
Theorem restart_reentrancy sys0 es sys :
  Restart.quiescent sys0 ->
  Restart.run sys0 es = Some sys ->
  length (Restart.tasks sys) <= 1 /\
  Restart.connections sys <= 1 /\
  (Restart.tasks sys <> [] ->
   exists sys',
     Restart.step sys Restart.Invoke = Some sys' /\
     Restart.notices (Restart.world sys') =
       Restart.notices (Restart.world sys) ++
       [Restart.WarningMessage "Elm LSP is already restarting..."] /\
     Restart.calls (Restart.world sys') = Restart.calls (Restart.world sys) /\
     Restart.client (Restart.world sys') = Restart.client (Restart.world sys) /\
     Restart.live (Restart.world sys') = Restart.live (Restart.world sys) /\
     Restart.tasks sys' = Restart.tasks sys) /\
  (forall i s sys',
     Restart.step sys (Restart.Settles i s) = Some sys' ->
     Restart.tasks sys' = [] ->
     match s with
     | Restart.StartSettled (Ok _) => Restart.connections sys' = 1
     | Restart.FindSettled (Ok _) => Restart.connections sys' = 0
     | _ => Restart.connections sys' <= 1
     end).
Proof.
  intros Hq Hrun.
  pose proof (invariant_run es _ _ (quiescent_invariant _ Hq) Hrun) as Hinv.
  split; [apply invariant_tasks, Hinv|].
  split; [apply invariant_connections, Hinv|].
  split.
  - intros Hbusy. apply (invariant_flag _ Hinv) in Hbusy.
    unfold Restart.step. rewrite (restart_enter_rejected _ Hbusy).
    eexists; split; [reflexivity|]. simpl. auto.
  - intros i s sys'. apply connections_at_completion, Hinv.
Qed.

Lemma restart_reentrancy_witness :
  exists sys,
    Restart.run Restart.activated Restart.restart_twice = Some sys /\
    Restart.connections sys <= 1.
Proof.
  eexists. split; [reflexivity|].
  apply (restart_reentrancy Restart.activated Restart.restart_twice _
           activated_quiescent eq_refl).
Defined.

(** C10: every invocation that entered the [try] block lowers
    [isRestarting] when it runs to its end, by returning or by throwing
    from the stop, the lookup or the start.  So the flag is up only
    while an invocation is suspended, and a request that arrives once
    the previous restart has completed is accepted, without the
    "already restarting" notice. *)
Theorem restart_flag_released sys0 es sys :
  Restart.quiescent sys0 ->
  Restart.run sys0 es = Some sys ->
  (forall pc s w' status,
     Restart.restart_resume (Restart.world sys) pc s = Some (w', status) ->
     Restart.finished status = true ->
     Restart.isRestarting w' = false) /\
  (forall i s sys',
     Restart.step sys (Restart.Settles i s) = Some sys' ->
     Restart.tasks sys' = [] ->
     Restart.isRestarting (Restart.world sys') = false) /\
  (Restart.tasks sys = [] ->
   Restart.isRestarting (Restart.world sys) = false /\
   exists sys',
     Restart.step sys Restart.Invoke = Some sys' /\
     Restart.tasks sys' <> [] /\
     Restart.isRestarting (Restart.world sys') = true /\
     Restart.notices (Restart.world sys') = Restart.notices (Restart.world sys)).
Proof.
  intros Hq Hrun.
  pose proof (invariant_run es _ _ (quiescent_invariant _ Hq) Hrun) as Hinv.
  split; [intros pc s w' status; apply finished_resets_flag|].
  split.
  - intros i s sys' Hstep Hdone.
    pose proof (invariant_settles _ _ _ _ Hinv Hstep) as Hinv'.
    destruct (Restart.isRestarting (Restart.world sys')) eqn:Hflag; [|reflexivity].
    apply (invariant_flag _ Hinv') in Hflag. contradiction.
  - intros Hidle.
    assert (Hflag : Restart.isRestarting (Restart.world sys) = false).
    { destruct (Restart.isRestarting (Restart.world sys)) eqn:Hflag; [|reflexivity].
      apply (invariant_flag _ Hinv) in Hflag. contradiction. }
    split; [exact Hflag|].
    destruct (restart_enter_accepted _ Hflag) as (pc & Hpc & Hup & Hnotices).
    unfold Restart.step.
    destruct (Restart.restart_enter (Restart.world sys)) as [w st]; simpl in *.
    subst st. eexists; split; [reflexivity|]. simpl.
    split; [destruct (Restart.tasks sys); discriminate|]. auto.
Qed.

Lemma restart_flag_released_witness :
  exists sys,
    Restart.run Restart.activated
      [Restart.Invoke; Restart.Settles 0 (Restart.StopSettled (Throw "stop failed"))]
      = Some sys /\
    Restart.isRestarting (Restart.world sys) = false.
Proof.
  eexists. split; [reflexivity|].
  apply (proj2 (proj2 (restart_flag_released Restart.activated
           [Restart.Invoke; Restart.Settles 0 (Restart.StopSettled (Throw "stop failed"))]
           _ activated_quiescent eq_refl))).
  reflexivity.
Defined.

(** ** JavaScript strings *)

Section StringFacts.

Lemma append_cons c a b : String c a +:+ b = String c (a +:+ b).
Proof. reflexivity. Qed.

Lemma append_nil b : "" +:+ b = b.
Proof. reflexivity. Qed.

Lemma append_assoc a b c : (a +:+ b) +:+ c = a +:+ (b +:+ c).
Proof. induction a as [|x a IH]; rewrite ?append_cons, ?append_nil; congruence. Qed.

Lemma startsWith_iff s p : startsWith s p = true <-> exists t, s = p +:+ t.
Proof.
  revert s. induction p as [|c p IH]; intros s; simpl.
  - split; [intros _; exists s; reflexivity|destruct s; reflexivity].
  - destruct s as [|d s]; simpl.
    + split; [discriminate|]. intros [t Ht]. discriminate Ht.
    + destruct (Ascii.eqb_spec c d) as [->|Hne].
      * rewrite IH. split; intros [t Ht]; exists t; rewrite append_cons in *; congruence.
      * split; [discriminate|]. intros [t Ht]. rewrite append_cons in Ht. congruence.
Qed.

Lemma str_rev_onto_app s acc : str_rev_onto s acc = str_rev s +:+ acc.
Proof.
  unfold str_rev. revert acc. induction s as [|c s IH]; intros acc; simpl.
  - reflexivity.
  - rewrite IH, (IH (String c EmptyString)), append_assoc.
    rewrite append_cons, append_nil. reflexivity.
Qed.

Lemma append_empty_r s : s +:+ "" = s.
Proof. induction s as [|c s IH]; rewrite ?append_cons, ?append_nil; congruence. Qed.

Lemma str_rev_app a b : str_rev (a +:+ b) = str_rev b +:+ str_rev a.
Proof.
  induction a as [|c a IH].
  - rewrite append_nil. change (str_rev "") with "". rewrite append_empty_r. reflexivity.
  - rewrite append_cons. unfold str_rev at 1 3. simpl. rewrite !str_rev_onto_app, IH.
    apply append_assoc.
Qed.

Lemma str_rev_involutive s : str_rev (str_rev s) = s.
Proof.
  induction s as [|c s IH]; [reflexivity|].
  unfold str_rev at 2. simpl. rewrite str_rev_onto_app, str_rev_app, IH.
  reflexivity.
Qed.

(** [endsWith] holds exactly of the strings that are some prefix
    followed by the suffix. *)
Lemma endsWith_iff s suffix : endsWith s suffix = true <-> exists p, s = p +:+ suffix.
Proof.
  unfold endsWith. rewrite startsWith_iff. split.
  - intros [t Ht]. exists (str_rev t).
    rewrite <- (str_rev_involutive s), Ht, str_rev_app, str_rev_involutive.
    reflexivity.
  - intros [p ->]. exists (str_rev p). apply str_rev_app.
Qed.

End StringFacts.

(** ** Rename synchronizer *)

Section RenameFacts.
Context {path : PathApi} {lsp : Client}.
Variable getWorkspaceFolder : Uri -> option string.
Import Rename.

(** What the [vscode.Range] constructor makes of the four numbers of a
    range: the range with its ends in document order. *)
Lemma mkRange_inOrder r :
  mkRange (line (range_start r)) (character (range_start r))
          (line (range_end r)) (character (range_end r)) = inOrder r.
Proof.
  destruct r as [[sl sc] [el ec]]. unfold mkRange, inOrder, isBefore. simpl.
  destruct (Nat.compare_spec sl el) as [->|Hlt|Hgt].
  - rewrite Nat.ltb_irrefl, Nat.eqb_refl. simpl.
    destruct (Nat.ltb_spec sc ec) as [Hc|Hc]; destruct (Nat.ltb_spec ec sc) as [Hc'|Hc'];
      try reflexivity; try lia.
    assert (sc = ec) as -> by lia. reflexivity.
  - apply Nat.ltb_lt in Hlt. rewrite Hlt. reflexivity.
  - destruct (Nat.ltb_spec sl el) as [?|_]; [lia|].
    destruct (Nat.eqb_spec sl el) as [?|_]; [lia|]. reflexivity.
Qed.

(** The range in order is the range or the range with its ends
    swapped, and its end is never before its start. *)
Lemma inOrder_cases r :
  inOrder r = r \/
  inOrder r = {| range_start := range_end r; range_end := range_start r |}.
Proof.
  unfold inOrder. destruct (Nat.compare _ _); auto.
  destruct (_ <? _)%nat; auto.
Qed.

Lemma inOrder_sorted r :
  isBefore (range_end (inOrder r)) (range_start (inOrder r)) = false.
Proof.
  destruct r as [[sl sc] [el ec]]. unfold inOrder, isBefore. simpl.
  destruct (Nat.compare_spec sl el) as [->|Hlt|Hgt]; simpl.
  - destruct (Nat.ltb_spec ec sc) as [Hc|Hc]; simpl;
      rewrite Nat.ltb_irrefl, Nat.eqb_refl; simpl; apply Nat.ltb_ge; lia.
  - apply orb_false_iff. split; [apply Nat.ltb_ge; lia|].
    apply andb_false_iff. left. apply Nat.eqb_neq. lia.
  - apply orb_false_iff. split; [apply Nat.ltb_ge; lia|].
    apply andb_false_iff. left. apply Nat.eqb_neq. lia.
Qed.

(** A range that is not written backwards is kept as it is. *)
Lemma inOrder_forward r :
  isBefore (range_end r) (range_start r) = false -> inOrder r = r.
Proof.
  destruct r as [[sl sc] [el ec]]. unfold inOrder, isBefore. simpl.
  rewrite orb_false_iff, andb_false_iff. intros [Hl Hc].
  apply Nat.ltb_ge in Hl.
  destruct (Nat.compare_spec sl el) as [->|Hlt|Hgt]; [|reflexivity|lia].
  rewrite Nat.eqb_refl in Hc. destruct Hc as [Hc|Hc]; [discriminate Hc|].
  rewrite Hc. reflexivity.
Qed.

Lemma St_eta (st : St) :
  {| server := server st; sent := sent st; workspaceEdit := workspaceEdit st;
     channel := channel st; warnings := warnings st |} = st.
Proof. destruct st. reflexivity. Qed.

(** The state after [l] has been added to the workspace edit. *)
Local Abbreviation extended l st :=
  {| server := server st; sent := sent st; workspaceEdit := workspaceEdit st ++ l;
     channel := channel st; warnings := warnings st |}.

Lemma replaceAll_run uri edits st :
  replaceAll uri edits st =
    ((if snd (readEdits uri edits) then Ok tt else Throw missing_range),
     extended (fst (readEdits uri edits)) st).
Proof.
  revert st. induction edits as [|e rest IH]; intros st; simpl.
  - unfold ret. rewrite app_nil_r, St_eta. reflexivity.
  - destruct (edit_range e) as [r|]; simpl.
    + unfold bind, replace. rewrite IH, mkRange_inOrder. simpl.
      destruct (readEdits uri rest) as [l ok]; simpl.
      rewrite <- app_assoc. reflexivity.
    + unfold throw. rewrite app_nil_r, St_eta. reflexivity.
Qed.

Lemma applyChanges_run entries st :
  applyChanges entries st =
    ((if snd (readChanges entries) then Ok tt else Throw missing_range),
     extended (fst (readChanges entries)) st).
Proof.
  revert st. induction entries as [|[uriStr edits] rest IH]; intros st; simpl.
  - unfold ret. rewrite app_nil_r, St_eta. reflexivity.
  - unfold bind. rewrite replaceAll_run.
    destruct (readEdits uriStr edits) as [l ok]; simpl.
    destruct ok; [|reflexivity].
    rewrite IH. simpl. destruct (readChanges rest) as [l' ok']; simpl.
    rewrite <- app_assoc. reflexivity.
Qed.

(** One turn of the loop never throws, and leaves the state that the
    answer to its request determines. *)
Lemma processPair_run file st :
  processPair getWorkspaceFolder file st =
    (Ok tt, afterBatch [requestFor getWorkspaceFolder file] st).
Proof.
  unfold processPair, try_catch, bind, sendRequest, afterBatch; simpl.
  rewrite !app_nil_r.
  destruct (answer (server st) (requestFor getWorkspaceFolder file)) as [[response|e] srv];
    simpl.
  - unfold contribution, linesOf, warningsOf, wellFormed, changesOf.
    destruct response as [|l|l|c]; simpl; unfold ret; simpl;
      rewrite ?app_nil_r; try reflexivity.
    unfold bind. destruct (success c); simpl.
    + destruct (changes c) as [entries|]; simpl.
      * rewrite applyChanges_run; simpl.
        destruct (readChanges entries) as [l ok]; simpl.
        destruct ok; unfold appendLine; simpl; rewrite ?app_nil_r; reflexivity.
      * unfold ret, appendLine; simpl. rewrite ?app_nil_r. reflexivity.
    + unfold ret; simpl.
      destruct (truthy_string (error c)); unfold showWarningMessage, ret; simpl;
        rewrite ?app_nil_r; reflexivity.
  - unfold appendLine, contribution, linesOf, warningsOf; simpl.
    rewrite ?app_nil_r. reflexivity.
Qed.

Lemma served_app reqs1 reqs2 srv :
  served srv (reqs1 ++ reqs2) = served (served srv reqs1) reqs2.
Proof. revert srv. induction reqs1 as [|r reqs1 IH]; intros srv; simpl; auto. Qed.

Lemma answers_app reqs1 reqs2 srv :
  answers srv (reqs1 ++ reqs2) = answers srv reqs1 ++ answers (served srv reqs1) reqs2.
Proof.
  revert srv. induction reqs1 as [|r reqs1 IH]; intros srv; simpl; [reflexivity|].
  rewrite IH. reflexivity.
Qed.

Lemma answers_length reqs srv : length (answers srv reqs) = length reqs.
Proof. revert srv. induction reqs as [|r reqs IH]; intros srv; simpl; auto. Qed.

Lemma afterBatch_app reqs1 reqs2 st :
  afterBatch reqs2 (afterBatch reqs1 st) = afterBatch (reqs1 ++ reqs2) st.
Proof.
  unfold afterBatch; simpl.
  rewrite served_app, answers_app, !flat_map_app, <- !app_assoc. reflexivity.
Qed.

(** The loop never throws: every pair gets its turn. *)
Lemma forEach_run files st :
  forEach getWorkspaceFolder files st =
    (Ok tt, afterBatch (map (requestFor getWorkspaceFolder) files) st).
Proof.
  revert st. induction files as [|file rest IH]; intros st; simpl.
  - unfold ret, afterBatch; simpl. rewrite !app_nil_r, St_eta. reflexivity.
  - unfold bind. rewrite processPair_run, IH, afterBatch_app. reflexivity.
Qed.

(** The handler, in one equation. *)
Lemma onWillRenameFiles_run client files st :
  onWillRenameFiles getWorkspaceFolder client files st =
    if client && negb (length (List.filter isElmPair files) =? 0)%nat then
      let st' := afterBatch (map (requestFor getWorkspaceFolder) (List.filter isElmPair files))
                   (fresh_edit st) in
      (WaitUntil (Ok (workspaceEdit st')), st')
    else (Ignored, st).
Proof.
  unfold onWillRenameFiles. rewrite forEach_run.
  destruct client, (length (List.filter isElmPair files) =? 0)%nat; reflexivity.
Qed.

Lemma isElmPair_false f :
  isElmPair f = false <->
  endsWith (fsPath (oldUri f)) ".elm" = false \/
  endsWith (fsPath (newUri f)) ".elm" = false.
Proof. unfold isElmPair. apply andb_false_iff. Qed.

(** The requests of a batch: one for each source pair, in the order of
    the batch, whatever the server answers. *)
Lemma onWillRenameFiles_sent files st :
  sent (snd (onWillRenameFiles getWorkspaceFolder true files st)) =
    sent st ++ map (requestFor getWorkspaceFolder) (List.filter isElmPair files).
Proof.
  rewrite onWillRenameFiles_run; simpl.
  destruct (List.filter isElmPair files); simpl; [rewrite app_nil_r|]; reflexivity.
Qed.

End RenameFacts.

(** C4: for every pair of the batch whose old and new paths both end in
    [.elm], the handler sends one command.  When the directory is
    unchanged it is [elm.renameFile] with the old URI and the new base
    name; when the directory changed it is [elm.moveFile] with the old
    URI and the new path relative to the workspace folder of the old
    URI, or the absolute new path when there is no such folder.  The
    handler is registered after [client] was assigned, so it runs with a
    client. *)
Theorem rename_or_move_per_pair {path : PathApi} {lsp : Client}
    (getWorkspaceFolder : Uri -> option string)
    (files : list Rename.FilePair) (st : Rename.St) (f : Rename.FilePair) :
  In f files ->
  endsWith (fsPath (Rename.oldUri f)) ".elm" = true ->
  endsWith (fsPath (Rename.newUri f)) ".elm" = true ->
  (path_dirname (fsPath (Rename.oldUri f)) = path_dirname (fsPath (Rename.newUri f)) ->
   In (ExecuteCommandRequest "elm.renameFile"
         [toString (Rename.oldUri f); path_basename (fsPath (Rename.newUri f))])
      (Rename.sent (snd (Rename.onWillRenameFiles getWorkspaceFolder true files st)))) /\
  (path_dirname (fsPath (Rename.oldUri f)) <> path_dirname (fsPath (Rename.newUri f)) ->
   (forall root,
      getWorkspaceFolder (Rename.oldUri f) = Some root ->
      In (ExecuteCommandRequest "elm.moveFile"
            [toString (Rename.oldUri f); path_relative root (fsPath (Rename.newUri f))])
         (Rename.sent (snd (Rename.onWillRenameFiles getWorkspaceFolder true files st)))) /\
   (getWorkspaceFolder (Rename.oldUri f) = None ->
      In (ExecuteCommandRequest "elm.moveFile"
            [toString (Rename.oldUri f); fsPath (Rename.newUri f)])
         (Rename.sent (snd (Rename.onWillRenameFiles getWorkspaceFolder true files st))))) /\
  length (Rename.sent (snd (Rename.onWillRenameFiles getWorkspaceFolder true files st))) =
    length (Rename.sent st) + length (List.filter Rename.isElmPair files).
Proof.
  intros Hin Hold Hnew.
  rewrite onWillRenameFiles_sent.
  assert (Hreq : In (Rename.requestFor getWorkspaceFolder f)
                    (Rename.sent st ++
                     map (Rename.requestFor getWorkspaceFolder)
                         (List.filter Rename.isElmPair files))).
  { apply in_or_app. right. apply in_map, filter_In. split; [exact Hin|].
    unfold Rename.isElmPair. rewrite Hold, Hnew. reflexivity. }
  unfold Rename.requestFor, Rename.renameFile, Rename.moveFile in Hreq.
  split; [|split].
  - intros Hdir. rewrite Hdir, String.eqb_refl in Hreq. exact Hreq.
  - intros Hdir. apply String.eqb_neq in Hdir. rewrite Hdir in Hreq.
    split; [intros root Hroot|intros Hroot]; rewrite Hroot in Hreq; exact Hreq.
  - rewrite length_app, length_map. reflexivity.
Qed.

Lemma rename_or_move_per_pair_witness :
  In (ExecuteCommandRequest "elm.moveFile" ["file:///proj/src/Foo.elm"; "src/Sub/Foo.elm"])
     (Rename.sent
        (snd (Rename.onWillRenameFiles (path := posix_path) (lsp := replay) proj_workspace
                true [rename_notes; move_Foo] flaky_state))).
Proof.
  apply (proj1 (proj1 (proj2 (rename_or_move_per_pair (path := posix_path) (lsp := replay)
           proj_workspace [rename_notes; move_Foo] flaky_state move_Foo
           (or_intror (or_introl eq_refl)) eq_refl eq_refl))
           ltac:(discriminate)) "/proj" eq_refl).
Defined.

(** C5: the edits of all pairs of a batch end up in the one workspace
    edit that the handler hands to [event.waitUntil], which resolves
    after the last pair: it holds, in the order of the batch, what the
    answer to each pair's command contributes, each edit under its URI,
    with its text, and with the range that [vscode.Range] makes of its
    four numbers.  An exception while a pair is processed, thrown by
    the request or by reading an edit that has no range, is caught and
    logged, and the pairs after it are still processed: every pair's
    command is sent, and the handler itself never throws. *)
Theorem rename_batch_accumulates {path : PathApi} {lsp : Client}
    (getWorkspaceFolder : Uri -> option string)
    (files : list Rename.FilePair) (st : Rename.St) :
  List.filter Rename.isElmPair files <> [] ->
  fst (Rename.onWillRenameFiles getWorkspaceFolder true files st) =
    Rename.WaitUntil
      (Ok (flat_map Rename.contribution
             (Rename.answers (Rename.server st)
                (map (Rename.requestFor getWorkspaceFolder)
                     (List.filter Rename.isElmPair files))))) /\
  Rename.sent (snd (Rename.onWillRenameFiles getWorkspaceFolder true files st)) =
    Rename.sent st ++
    map (Rename.requestFor getWorkspaceFolder) (List.filter Rename.isElmPair files) /\
  length (Rename.answers (Rename.server st)
            (map (Rename.requestFor getWorkspaceFolder)
                 (List.filter Rename.isElmPair files))) =
    length (List.filter Rename.isElmPair files) /\
  (forall e,
     In (Throw e)
        (Rename.answers (Rename.server st)
           (map (Rename.requestFor getWorkspaceFolder)
                (List.filter Rename.isElmPair files))) ->
     In ("Elm file rename error: " +:+ e)
        (Rename.channel (snd (Rename.onWillRenameFiles getWorkspaceFolder true files st)))) /\
  (forall r,
     In r (Rename.answers (Rename.server st)
             (map (Rename.requestFor getWorkspaceFolder)
                  (List.filter Rename.isElmPair files))) ->
     Rename.wellFormed r = false ->
     In ("Elm file rename error: " +:+ Rename.missing_range)
        (Rename.channel (snd (Rename.onWillRenameFiles getWorkspaceFolder true files st)))).
Proof.
  intros Hsome.
  assert (Hchannel : forall r,
            In r (Rename.answers (Rename.server st)
                    (map (Rename.requestFor getWorkspaceFolder)
                         (List.filter Rename.isElmPair files))) ->
            forall l, In l (Rename.linesOf r) ->
            In l (Rename.channel
                    (snd (Rename.onWillRenameFiles getWorkspaceFolder true files st)))).
  { intros r Hr l Hl. rewrite onWillRenameFiles_run.
    destruct (List.filter Rename.isElmPair files) as [|g elmFiles]; [contradiction|].
    cbn [andb negb length Nat.eqb snd Rename.afterBatch Rename.channel Rename.fresh_edit
         Rename.server].
    apply in_or_app. right. apply in_flat_map. exists r. auto. }
  split; [|split; [apply onWillRenameFiles_sent|split; [|split]]].
  - rewrite onWillRenameFiles_run.
    destruct (List.filter Rename.isElmPair files); [contradiction|reflexivity].
  - rewrite answers_length, length_map. reflexivity.
  - intros e He. apply (Hchannel _ He). left. reflexivity.
  - intros r Hr Hbad. apply (Hchannel _ Hr).
    unfold Rename.wellFormed, Rename.changesOf in Hbad. unfold Rename.linesOf.
    destruct r as [[| | |c]|e]; try discriminate Hbad.
    destruct (success c) eqn:Hok; [|discriminate Hbad].
    unfold Rename.wellFormed, Rename.changesOf. rewrite Hok, Hbad.
    left. reflexivity.
Qed.

Lemma rename_batch_accumulates_witness :
  fst (Rename.onWillRenameFiles (path := posix_path) (lsp := replay) proj_workspace
         true [rename_Foo; rename_notes; move_Foo] backward_state) =
  Rename.WaitUntil
    (Ok [{| Rename.replace_uri := "file:///proj/src/Main.elm";
            Rename.replace_range :=
              {| range_start := {| line := 2; character := 7 |};
                 range_end := {| line := 2; character := 10 |} |};
            Rename.replace_text := "Bar" |}]).
Proof.
  apply (proj1 (rename_batch_accumulates (path := posix_path) (lsp := replay)
           proj_workspace [rename_Foo; rename_notes; move_Foo] backward_state
           ltac:(discriminate))).
Defined.

(** C8: a pair whose old path or new path does not end in [.elm] is
    dropped before anything else happens.  The handler behaves on the
    batch as on the batch without the pair, alone the pair makes the
    handler return at once, and every command that the handler sends is
    the command of a pair both of whose paths end in [.elm]. *)
Theorem non_source_pair_ignored {path : PathApi} {lsp : Client}
    (getWorkspaceFolder : Uri -> option string) (client : bool)
    (before after : list Rename.FilePair) (f : Rename.FilePair) (st : Rename.St) :
  endsWith (fsPath (Rename.oldUri f)) ".elm" = false \/
  endsWith (fsPath (Rename.newUri f)) ".elm" = false ->
  Rename.onWillRenameFiles getWorkspaceFolder client (before ++ f :: after) st =
    Rename.onWillRenameFiles getWorkspaceFolder client (before ++ after) st /\
  Rename.onWillRenameFiles getWorkspaceFolder client [f] st = (Rename.Ignored, st) /\
  (forall req,
     In req (Rename.sent
               (snd (Rename.onWillRenameFiles getWorkspaceFolder client
                       (before ++ f :: after) st))) ->
     In req (Rename.sent st) \/
     exists g, In g (before ++ after) /\
               endsWith (fsPath (Rename.oldUri g)) ".elm" = true /\
               endsWith (fsPath (Rename.newUri g)) ".elm" = true /\
               req = Rename.requestFor getWorkspaceFolder g).
Proof.
  intros Hf. apply isElmPair_false in Hf.
  assert (Hfilter : List.filter Rename.isElmPair (before ++ f :: after) =
                    List.filter Rename.isElmPair (before ++ after)).
  { rewrite !List.filter_app. simpl. rewrite Hf. reflexivity. }
  split; [|split].
  - rewrite !onWillRenameFiles_run, Hfilter. reflexivity.
  - rewrite onWillRenameFiles_run. simpl. rewrite Hf. simpl.
    rewrite andb_false_r. reflexivity.
  - intros req. rewrite onWillRenameFiles_run, Hfilter.
    destruct (client && negb (length (List.filter Rename.isElmPair (before ++ after)) =? 0)%nat);
      [|left; assumption].
    cbn [snd Rename.afterBatch Rename.sent Rename.fresh_edit].
    intros Hreq. apply in_app_or in Hreq as [Hreq|Hreq]; [left; exact Hreq|right].
    apply in_map_iff in Hreq as (g & <- & Hg).
    apply filter_In in Hg as [Hg Helm].
    unfold Rename.isElmPair in Helm. apply andb_true_iff in Helm as [Hold Hnew].
    exists g. auto.
Qed.

Lemma non_source_pair_ignored_witness :
  Rename.onWillRenameFiles (path := posix_path) (lsp := replay) proj_workspace
    true [rename_notes] flaky_state = (Rename.Ignored, flaky_state).
Proof.
  apply (proj1 (proj2 (non_source_pair_ignored (path := posix_path) (lsp := replay)
           proj_workspace true [] [] rename_notes flaky_state (or_introl eq_refl)))).
Defined.

(** ** Reference annotator *)

Section CodeLensFacts.
Context {lsp : Client}.
Import CodeLens.

Lemma position_eta (p : Position) : {| line := line p; character := character p |} = p.
Proof. destruct p. reflexivity. Qed.

(** What [resolveCodeLens] does with a client and an active editor:
    one request, against the active document. *)
Lemma resolveCodeLens_run document codeLens srv :
  resolveCodeLens true (Some document) codeLens srv =
    let req := ReferencesRequest (toString (doc_uri document))
                 (range_start (range codeLens)) false in
    {| value := withCommand
                  match fst (answer srv req) with
                  | Ok references =>
                      referencesCommand document codeLens (referenceCount references)
                  | Throw _ => emptyCommand
                  end codeLens;
       requests := [req]; logged := []; server_after := snd (answer srv req) |}.
Proof.
  unfold resolveCodeLens; simpl. rewrite position_eta.
  destruct (answer srv _) as [r srv']. reflexivity.
Qed.

End CodeLensFacts.



(** C9: the references request of [resolveCodeLens] names the document
    of the active editor, for every annotation, and so also for one
    that [provideCodeLenses] produced for another document; and without
    a client, or without an active editor, every annotation gets the
    empty label, which is not actionable, and no request is sent. *)
Theorem resolveCodeLens_active_document {lsp : Client}
    (client : bool) (srv : Server)
    (codeLens : CodeLens.CodeLens) (active : option CodeLens.Document) :
  (forall document,
     client = true -> active = Some document ->
     CodeLens.requests (CodeLens.resolveCodeLens client active codeLens srv) =
       [ReferencesRequest (toString (CodeLens.doc_uri document))
          (range_start (CodeLens.range codeLens)) false]) /\
  (forall (producer : CodeLens.Document) (enabled : bool) (srv0 : Server) document,
     In codeLens (CodeLens.value (CodeLens.provideCodeLenses true enabled producer srv0)) ->
     client = true -> active = Some document ->
     CodeLens.requests (CodeLens.resolveCodeLens client active codeLens srv) =
       [ReferencesRequest (toString (CodeLens.doc_uri document))
          (range_start (CodeLens.range codeLens)) false]) /\
  (client = false \/ active = None ->
     CodeLens.value (CodeLens.resolveCodeLens client active codeLens srv) =
       {| CodeLens.range := CodeLens.range codeLens;
          CodeLens.lens_command :=
            Some {| CodeLens.title := ""; CodeLens.command := "";
                    CodeLens.arguments := None |} |} /\
     CodeLens.actionable
       {| CodeLens.title := ""; CodeLens.command := ""; CodeLens.arguments := None |} = false /\
     CodeLens.requests (CodeLens.resolveCodeLens client active codeLens srv) = []).
Proof.
  assert (Hactive : forall document,
            client = true -> active = Some document ->
            CodeLens.requests (CodeLens.resolveCodeLens client active codeLens srv) =
              [ReferencesRequest (toString (CodeLens.doc_uri document))
                 (range_start (CodeLens.range codeLens)) false]).
  { intros document -> ->. rewrite resolveCodeLens_run. reflexivity. }
  split; [exact Hactive|]. split.
  - intros producer enabled srv0 document _. apply Hactive.
  - intros [-> | ->]; unfold CodeLens.resolveCodeLens; simpl.
    + auto.
    + destruct client; simpl; auto.
Qed.

Lemma resolveCodeLens_active_document_witness :
  CodeLens.value (CodeLens.provideCodeLenses (lsp := replay) true true doc_A symbols_A) =
    [lens_update] /\
  CodeLens.requests
    (CodeLens.resolveCodeLens (lsp := replay) true (Some doc_B) lens_update three_references) =
    [ReferencesRequest "file:///proj/src/B.elm" {| line := 4; character := 0 |} false] /\
  CodeLens.lens_command
    (CodeLens.value
       (CodeLens.resolveCodeLens (lsp := replay) false (Some doc_B) lens_update
          three_references)) =
    Some {| CodeLens.title := ""; CodeLens.command := ""; CodeLens.arguments := None |}.
Proof.
  split; [reflexivity|]. split.
  - apply (proj1 (proj2 (resolveCodeLens_active_document (lsp := replay) true
             three_references lens_update (Some doc_B)))
             doc_A true symbols_A doc_B (or_introl eq_refl) eq_refl eq_refl).
  - rewrite (proj1 (proj2 (proj2 (resolveCodeLens_active_document (lsp := replay) false
               three_references lens_update (Some doc_B))) (or_introl eq_refl))).
    reflexivity.
Defined.

(** ** The scenarios of the specification, run *)

Example platform_targets :
  map (fun '(os, arch) => Platform.getPlatformTarget os arch)
      [("darwin", "arm64"); ("darwin", "x64"); ("linux", "x64"); ("win32", "x64");
       ("linux", "arm64"); ("freebsd", "x64")]
  = [Ok "darwin-arm64"; Ok "darwin-x64"; Ok "linux-x64"; Ok "win32-x64";
     Ok "linux-x64"; Throw "Unsupported platform: freebsd-x64"].
Proof. reflexivity. Qed.

(** Nothing installed and nothing configured: "not found". *)
Example findServerBinary_not_found :
  Locator.findServerBinary (path := posix_path) (linux_host (Some "") []) = None.
Proof. reflexivity. Qed.

(** A chain of redirects that ends in 200 writes the body to the
    destination. *)
Example downloadFile_follows_redirects :
  snd (Download.downloadFile redirecting_server 8 asset_url install_path ∅) =
    Download.Resolved /\
  fst (Download.downloadFile redirecting_server 8 asset_url install_path ∅) !! install_path =
    Some "ELF binary".
Proof. split; vm_compute; reflexivity. Qed.

(** A failed connection leaves no file. *)
Example downloadFile_unreachable :
  Download.downloadFile Download.unreachable_server 8 asset_url install_path ∅ =
    (delete install_path (<[install_path := ""]> ∅), Download.Rejected "ECONNREFUSED") /\
  fst (Download.downloadFile Download.unreachable_server 8 asset_url install_path ∅)
    !! install_path = None.
Proof.
  apply (downloadFile_request_error_unlinks Download.unreachable_server 7
           asset_url install_path ∅ "ECONNREFUSED" eq_refl).
Qed.

(** The redirects have no bound: a server that redirects in a circle
    keeps the promise pending, whatever the fuel. *)
Example downloadFile_redirect_cycle fuel :
  snd (Download.downloadFile looping_server fuel asset_url install_path ∅) =
    Download.Pending.
Proof.
  assert (Hrequest : forall fs : Download.FileSystem,
            Download.request looping_server fuel asset_url install_path fs =
              (fs, Ok Download.Pending)).
  { induction fuel as [|fuel IH]; intros fs; simpl; [reflexivity|].
    rewrite IH. reflexivity. }
  unfold Download.downloadFile. rewrite Hrequest. reflexivity.
Qed.

(** A redirect to a relative location: [https.get] throws inside the
    response callback, the promise is never settled, and the destination
    stays the empty file that [createWriteStream] made. *)
Example downloadFile_relative_location :
  Download.downloadFile relative_redirect_server 8 asset_url install_path
    {[ install_path := "previous binary" ]} =
    ({[ install_path := "" ]}, Download.Pending).
Proof. vm_compute. reflexivity. Qed.

(** A first URL that [https.get] refuses: the throw leaves the promise
    executor, the promise is rejected with what was thrown, and nothing
    unlinks the file that [createWriteStream] made. *)
Example downloadFile_no_url :
  Download.downloadFile no_url 8 "elm_lsp-linux-x64" install_path
    {[ install_path := "previous binary" ]} =
    ({[ install_path := "" ]}, Download.Rejected "TypeError: Invalid URL").
Proof. vm_compute. reflexivity. Qed.

(** A body that breaks off: what arrived is in the file, and the
    promise is never settled. *)
Example downloadFile_broken_body :
  Download.downloadFile breaking_server 8 asset_url install_path
    {[ install_path := "previous binary" ]} =
    ({[ install_path := "ELF bin" ]}, Download.Pending).
Proof. vm_compute. reflexivity. Qed.

(** A second restart request while the first waits: one warning, one
    stop, one lookup, one start, and one connection at the end. *)
Example restart_twice_run :
  exists sys,
    Restart.run Restart.activated Restart.restart_twice = Some sys /\
    Restart.tasks sys = [] /\
    Restart.client (Restart.world sys) = Some 1 /\
    Restart.connections sys = 1 /\
    Restart.calls (Restart.world sys) =
      [Restart.CallStop 0; Restart.CallFindServerBinary;
       Restart.CallStart 1 "/opt/elm/elm_lsp"] /\
    Restart.notices (Restart.world sys) =
      [Restart.InformationMessage "Elm LSP started";
       Restart.WarningMessage "Elm LSP is already restarting...";
       Restart.InformationMessage "Elm LSP restarted"].
Proof.
  eexists. split; [reflexivity|].
  repeat split.
Qed.

(** Renaming [Foo.elm] to [Bar.elm] in the same folder. *)
Example rename_in_place :
  Rename.requestFor (path := posix_path) proj_workspace rename_Foo =
    ExecuteCommandRequest "elm.renameFile" ["file:///proj/src/Foo.elm"; "Bar.elm"].
Proof. reflexivity. Qed.

(** Moving [src/Foo.elm] to [src/Sub/Foo.elm] inside [/proj]. *)
Example move_to_subdirectory :
  Rename.requestFor (path := posix_path) proj_workspace move_Foo =
    ExecuteCommandRequest "elm.moveFile" ["file:///proj/src/Foo.elm"; "src/Sub/Foo.elm"].
Proof. reflexivity. Qed.

(** A batch whose first command fails: the failure is logged, the
    second command is sent, and its edit is in the workspace edit. *)
Example flaky_batch :
  Rename.onWillRenameFiles (path := posix_path) (lsp := replay) proj_workspace true
    [rename_Foo; rename_notes; move_Foo] flaky_state =
  (Rename.WaitUntil
     (Ok [{| Rename.replace_uri := "file:///proj/src/Main.elm";
            Rename.replace_range := wireRange 2 7 2 10;
            Rename.replace_text := "Bar" |}]),
   {| Rename.server := ([] : @Server replay);
      Rename.sent :=
        [ExecuteCommandRequest "elm.renameFile" ["file:///proj/src/Foo.elm"; "Bar.elm"];
         ExecuteCommandRequest "elm.moveFile" ["file:///proj/src/Foo.elm"; "src/Sub/Foo.elm"]];
      Rename.workspaceEdit :=
        [{| Rename.replace_uri := "file:///proj/src/Main.elm";
            Rename.replace_range := wireRange 2 7 2 10;
            Rename.replace_text := "Bar" |}];
      Rename.channel :=
        ["Elm file rename error: Error: server not ready";
         "Elm: Foo → Bar (1 files updated)"];
      Rename.warnings := [] |}).
Proof. reflexivity. Qed.

(** Without a client the handler returns at once. *)
Example rename_without_client :
  Rename.onWillRenameFiles (path := posix_path) (lsp := replay) proj_workspace false
    [rename_Foo; move_Foo] flaky_state = (Rename.Ignored, flaky_state).
Proof. reflexivity. Qed.

(** No reference, one reference, three references. *)
Example labels :
  map (fun n => let c := CodeLens.referencesCommand doc_A lens_update n in
                (CodeLens.title c, CodeLens.actionable c))
      [0; 1; 3]
  = [("0 references", false); ("1 reference", true); ("3 references", true)].
Proof. reflexivity. Qed.

(** ** More of the installer: redirects, failures, other files *)

Section TransferFacts.
Import Download Transfer.

Lemma landing_not_redirect net fuel url u :
  landing net fuel url = Some u ->
  forall code loc body,
    net u = Response code loc body -> ((code =? 302)%nat || (code =? 301)%nat) = false.
Proof.
  revert url. induction fuel as [|fuel IH]; intros url; simpl; [discriminate|].
  destruct (net url) as [code loc body|partial|err|err] eqn:Hnet;
    try (intros [= <-] c l b Hu; congruence).
  destruct ((code =? 302)%nat || (code =? 301)%nat) eqn:Hred; [apply IH|].
  intros [= <-] c l b Hu. rewrite Hnet in Hu. injection Hu as <- <- <-. exact Hred.
Qed.

(** [request] follows the redirects to the URL they end at and acts on
    its answer alone.  What [https.get] throws there leaves the call
    when no redirect was followed, and is lost in the response callback
    otherwise. *)
Lemma request_at_landing net fuel url u dest (fs : FileSystem) :
  landing net fuel url = Some u ->
  request net fuel url dest fs =
    match net u with
    | Response code loc body =>
        if negb (code =? 200)%nat then
          (fs, Ok (Rejected ("Download failed: " +:+ string_of_nat code)))
        else (pipe dest body fs, Ok Resolved)
    | Truncated partial => (pipe dest partial fs, Ok Pending)
    | RequestError err => (unlink dest fs, Ok (Rejected err))
    | Throws err => (fs, if String.eqb u url then Throw err else Ok Pending)
    end.
Proof.
  revert url. induction fuel as [|fuel IH]; intros url; simpl; [discriminate|].
  destruct (net url) as [code loc body|partial|err|err] eqn:Hnet;
    try (intros [= <-]; rewrite Hnet, ?String.eqb_refl; reflexivity).
  destruct ((code =? 302)%nat || (code =? 301)%nat) eqn:Hred.
  - intros Hland. rewrite (IH _ Hland).
    pose proof (landing_not_redirect _ _ _ _ Hland) as Hu.
    destruct (net u) as [c l b|partial|err|err] eqn:Hnetu.
    + destruct (negb (c =? 200)%nat); reflexivity.
    + reflexivity.
    + reflexivity.
    + destruct (String.eqb_spec u url) as [->|_]; [congruence|].
      destruct (String.eqb u loc); reflexivity.
  - intros [= <-]. rewrite Hnet. reflexivity.
Qed.

Lemma request_pending net fuel url dest (fs : FileSystem) :
  landing net fuel url = None ->
  request net fuel url dest fs = (fs, Ok Pending).
Proof.
  revert url. induction fuel as [|fuel IH]; intros url; simpl; [reflexivity|].
  destruct (net url) as [code loc body|partial|err|err]; try discriminate.
  destruct ((code =? 302)%nat || (code =? 301)%nat); [|discriminate].
  intros Hland. rewrite (IH _ Hland). reflexivity.
Qed.

(** The same for [downloadFile], where a throw of the first call
    rejects the promise. *)
Lemma downloadFile_at_landing net fuel url u dest (fs : FileSystem) :
  landing net fuel url = Some u ->
  downloadFile net fuel url dest fs =
    let fs0 := createWriteStream dest fs in
    match net u with
    | Response code loc body =>
        if negb (code =? 200)%nat then
          (fs0, Rejected ("Download failed: " +:+ string_of_nat code))
        else (pipe dest body fs0, Resolved)
    | Truncated partial => (pipe dest partial fs0, Pending)
    | RequestError err => (unlink dest fs0, Rejected err)
    | Throws err => (fs0, if String.eqb u url then Rejected err else Pending)
    end.
Proof.
  intros Hland. unfold downloadFile. rewrite (request_at_landing _ _ _ _ _ _ Hland).
  cbv zeta. destruct (net u) as [code loc body|partial|err|err]; try reflexivity.
  - destruct (negb (code =? 200)%nat); reflexivity.
  - destruct (String.eqb u url); reflexivity.
Qed.

Lemma downloadFile_pending net fuel url dest (fs : FileSystem) :
  landing net fuel url = None ->
  downloadFile net fuel url dest fs = (createWriteStream dest fs, Pending).
Proof.
  intros Hland. unfold downloadFile. rewrite (request_pending _ _ _ _ _ Hland).
  reflexivity.
Qed.

Lemma downloadFile_settled_landing net fuel url dest (fs : FileSystem) :
  snd (downloadFile net fuel url dest fs) <> Pending ->
  exists u, landing net fuel url = Some u.
Proof.
  intros Hsettled. destruct (landing net fuel url) as [u|] eqn:Hland; [eauto|].
  rewrite (downloadFile_pending _ _ _ _ _ Hland) in Hsettled. contradiction.
Qed.

Lemma landing_more_fuel net fuel fuel' url u :
  landing net fuel url = Some u -> fuel <= fuel' -> landing net fuel' url = Some u.
Proof.
  revert fuel' url. induction fuel as [|fuel IH]; intros fuel' url; simpl; [discriminate|].
  intros Hland Hle. destruct fuel' as [|fuel']; [lia|]. simpl.
  destruct (net url) as [code loc body|partial|err|err]; try exact Hland.
  destruct ((code =? 302)%nat || (code =? 301)%nat); [|exact Hland].
  apply IH; [exact Hland|lia].
Qed.

(** [request] reads and writes the destination only. *)
Lemma request_frame net fuel url dest (fs : FileSystem) p :
  p <> dest -> fst (request net fuel url dest fs) !! p = fs !! p.
Proof.
  intros Hp. revert url. induction fuel as [|fuel IH]; intros url; simpl; [reflexivity|].
  destruct (net url) as [code loc body|partial|err|err]; simpl.
  - destruct ((code =? 302)%nat || (code =? 301)%nat).
    + specialize (IH loc).
      destruct (request net fuel loc dest fs) as [fs' [settled|e]]; exact IH.
    + destruct (negb (code =? 200)%nat); simpl; [reflexivity|].
      unfold pipe. apply lookup_insert_ne. congruence.
  - unfold pipe. apply lookup_insert_ne. congruence.
  - unfold unlink. apply lookup_delete_ne. congruence.
  - reflexivity.
Qed.

(** The destination after [createWriteStream] and [pipe]. *)
Lemma piped_fresh dest body (fs : FileSystem) :
  pipe dest body (createWriteStream dest fs) !! dest = Some body.
Proof.
  unfold pipe, createWriteStream. rewrite !lookup_insert_eq. reflexivity.
Qed.

End TransferFacts.

(** X1: the redirects are followed to the URL at which they end, and
    the answer of that URL alone decides.  When it answers 200 and the
    body arrives in full, [downloadFile] resolves and the destination
    holds exactly that body, whatever it held before.  When the body
    breaks off, the promise is never settled and the destination holds
    the part that arrived.  When a redirect leads to a string that
    [https.get] refuses, a relative [Location] for one, the throw is
    lost in the response callback: the promise is never settled and the
    destination is an empty file. *)
Theorem downloadFile_redirects_then_body net fuel url dest (fs : Download.FileSystem) u :
  Transfer.landing net fuel url = Some u ->
  (forall loc body,
     net u = Download.Response 200 loc body ->
     snd (Download.downloadFile net fuel url dest fs) = Download.Resolved /\
     fst (Download.downloadFile net fuel url dest fs) !! dest = Some body) /\
  (forall partial,
     net u = Download.Truncated partial ->
     snd (Download.downloadFile net fuel url dest fs) = Download.Pending /\
     fst (Download.downloadFile net fuel url dest fs) !! dest = Some partial) /\
  (forall err,
     net u = Download.Throws err ->
     u <> url ->
     snd (Download.downloadFile net fuel url dest fs) = Download.Pending /\
     fst (Download.downloadFile net fuel url dest fs) !! dest = Some "") /\
  (snd (Download.downloadFile net fuel url dest fs) = Download.Resolved ->
   exists loc body, net u = Download.Response 200 loc body).
Proof.
  intros Hland. rewrite (downloadFile_at_landing _ _ _ _ _ _ Hland). cbv zeta.
  repeat split.
  - rewrite H. reflexivity.
  - rewrite H. apply piped_fresh.
  - rewrite H. reflexivity.
  - rewrite H. apply piped_fresh.
  - rewrite H. destruct (String.eqb_spec u url); [contradiction|reflexivity].
  - rewrite H. simpl. unfold Download.createWriteStream. apply lookup_insert_eq.
  - destruct (net u) as [code loc body|partial|err|err]; simpl.
    + destruct (Nat.eqb_spec code 200) as [->|_]; simpl; [eauto|discriminate].
    + discriminate.
    + discriminate.
    + destruct (String.eqb u url); discriminate.
Qed.

Lemma downloadFile_redirects_then_body_witness :
  (snd (Download.downloadFile redirecting_server 8 asset_url install_path
          {[ install_path := "previous binary" ]}) = Download.Resolved /\
   fst (Download.downloadFile redirecting_server 8 asset_url install_path
          {[ install_path := "previous binary" ]}) !! install_path = Some "ELF binary") /\
  (snd (Download.downloadFile relative_redirect_server 8 asset_url install_path
          {[ install_path := "previous binary" ]}) = Download.Pending /\
   fst (Download.downloadFile relative_redirect_server 8 asset_url install_path
          {[ install_path := "previous binary" ]}) !! install_path = Some "") /\
  (snd (Download.downloadFile breaking_server 8 asset_url install_path
          {[ install_path := "previous binary" ]}) = Download.Pending /\
   fst (Download.downloadFile breaking_server 8 asset_url install_path
          {[ install_path := "previous binary" ]}) !! install_path = Some "ELF bin").
Proof.
  split; [|split].
  - apply (proj1 (downloadFile_redirects_then_body redirecting_server 8 asset_url
             install_path {[ install_path := "previous binary" ]}
             "https://objects.example/two" eq_refl) "" "ELF binary" eq_refl).
  - apply (proj1 (proj2 (proj2 (downloadFile_redirects_then_body relative_redirect_server 8
             asset_url install_path {[ install_path := "previous binary" ]}
             "/releases/elm_lsp-linux-x64" eq_refl))) "TypeError: Invalid URL" eq_refl
             ltac:(discriminate)).
  - apply (proj1 (proj2 (downloadFile_redirects_then_body breaking_server 8 asset_url
             install_path {[ install_path := "previous binary" ]} asset_url eq_refl))
             "ELF bin" eq_refl).
Defined.

(** X2: [downloadFile] reads and writes no file but the destination:
    however the download ends, every other path holds what it held. *)
Theorem downloadFile_other_files_untouched net fuel url dest (fs : Download.FileSystem) p :
  p <> dest ->
  fst (Download.downloadFile net fuel url dest fs) !! p = fs !! p.
Proof.
  intros Hp. unfold Download.downloadFile.
  pose proof (request_frame net fuel url dest (Download.createWriteStream dest fs) p Hp)
    as Hframe.
  destruct (Download.request net fuel url dest _) as [fs' [settled|e]];
    cbn [fst] in *; rewrite Hframe;
    unfold Download.createWriteStream; apply lookup_insert_ne; congruence.
Qed.

Lemma downloadFile_other_files_untouched_witness :
  fst (Download.downloadFile Download.unreachable_server 8 asset_url install_path
         {[ "/home/u/notes.txt" := "keep" ]}) !! "/home/u/notes.txt" = Some "keep".
Proof.
  rewrite (downloadFile_other_files_untouched Download.unreachable_server 8 asset_url
             install_path {[ "/home/u/notes.txt" := "keep" ]} "/home/u/notes.txt"
             ltac:(discriminate)).
  apply lookup_singleton_eq.
Defined.

(** X3: every way [downloadFile] rejects.  The redirects have ended at
    some URL, and one of three holds.  The request to that URL failed:
    the error is passed on and no file is left at the destination.  Its
    status was neither 200 nor a redirect: the message is
    "Download failed: <status>" and the destination is an empty file.
    Or [https.get] threw on the URL that [downloadFile] was called with,
    before any request: the promise is rejected with what was thrown
    and the destination is an empty file, which nothing unlinks.  What
    [https.get] throws after a redirect never rejects.  A rejected
    download never leaves part of a body. *)
Theorem downloadFile_rejected_cases net fuel url dest (fs : Download.FileSystem) msg :
  snd (Download.downloadFile net fuel url dest fs) = Download.Rejected msg ->
  exists u,
    Transfer.landing net fuel url = Some u /\
    ((net u = Download.RequestError msg /\
      fst (Download.downloadFile net fuel url dest fs) !! dest = None) \/
     (exists code loc body,
        net u = Download.Response code loc body /\
        code <> 200 /\ code <> 301 /\ code <> 302 /\
        msg = "Download failed: " +:+ string_of_nat code /\
        fst (Download.downloadFile net fuel url dest fs) !! dest = Some "") \/
     (u = url /\
      net url = Download.Throws msg /\
      fst (Download.downloadFile net fuel url dest fs) !! dest = Some "")).
Proof.
  intros Hrej.
  destruct (downloadFile_settled_landing net fuel url dest fs) as [u Hland];
    [rewrite Hrej; discriminate|].
  exists u. split; [exact Hland|].
  pose proof (landing_not_redirect _ _ _ _ Hland) as Hred.
  rewrite (downloadFile_at_landing _ _ _ _ _ _ Hland) in Hrej |- *. cbv zeta in *.
  destruct (net u) as [code loc body|partial|err|err] eqn:Hnet.
  - right. left. exists code, loc, body.
    specialize (Hred _ _ _ eq_refl). apply orb_false_iff in Hred as [H302 H301].
    apply Nat.eqb_neq in H302, H301.
    destruct (Nat.eqb_spec code 200) as [->|H200]; simpl in *; [discriminate Hrej|].
    injection Hrej as <-. repeat split; try assumption.
    unfold Download.createWriteStream. apply lookup_insert_eq.
  - discriminate Hrej.
  - left. simpl in *. injection Hrej as <-. split; [reflexivity|].
    unfold Download.unlink. apply lookup_delete_eq.
  - right. right. destruct (String.eqb_spec u url) as [->|_]; [|discriminate Hrej].
    simpl in *. injection Hrej as <-. repeat split; [exact Hnet|].
    unfold Download.createWriteStream. apply lookup_insert_eq.
Qed.

Lemma downloadFile_rejected_cases_witness :
  exists u,
    Transfer.landing no_url 8 "elm_lsp-linux-x64" = Some u /\
    ((no_url u = Download.RequestError "TypeError: Invalid URL" /\
      fst (Download.downloadFile no_url 8 "elm_lsp-linux-x64" install_path ∅)
        !! install_path = None) \/
     (exists code loc body,
        no_url u = Download.Response code loc body /\
        code <> 200 /\ code <> 301 /\ code <> 302 /\
        "TypeError: Invalid URL" = "Download failed: " +:+ string_of_nat code /\
        fst (Download.downloadFile no_url 8 "elm_lsp-linux-x64" install_path ∅)
          !! install_path = Some "") \/
     (u = "elm_lsp-linux-x64" /\
      no_url "elm_lsp-linux-x64" = Download.Throws "TypeError: Invalid URL" /\
      fst (Download.downloadFile no_url 8 "elm_lsp-linux-x64" install_path ∅)
        !! install_path = Some "")).
Proof.
  apply (downloadFile_rejected_cases no_url 8 "elm_lsp-linux-x64" install_path ∅
           "TypeError: Invalid URL" eq_refl).
Defined.

(** The outcome of a download does not depend on how many GETs are
    allowed, once they suffice: if [downloadFile] settles within [fuel]
    GETs, it does the same with any larger number. *)
Lemma downloadFile_settled_stable net fuel fuel' url dest (fs : Download.FileSystem) :
  snd (Download.downloadFile net fuel url dest fs) <> Download.Pending ->
  fuel <= fuel' ->
  Download.downloadFile net fuel' url dest fs = Download.downloadFile net fuel url dest fs.
Proof.
  intros Hsettled Hle.
  destruct (downloadFile_settled_landing _ _ _ _ _ Hsettled) as [u Hland].
  rewrite (downloadFile_at_landing _ _ _ _ _ _ Hland).
  rewrite (downloadFile_at_landing _ _ _ _ _ _ (landing_more_fuel _ _ _ _ _ Hland Hle)).
  reflexivity.
Qed.

Example downloadFile_settled_stable_example :
  Download.downloadFile redirecting_server 100 asset_url install_path ∅ =
  Download.downloadFile redirecting_server 3 asset_url install_path ∅.
Proof.
  apply (downloadFile_settled_stable redirecting_server 3 100 asset_url install_path ∅);
    [discriminate|lia].
Qed.

(** X4: the redirects are followed without a bound.  When the URL lies
    in a set of URLs that all answer with a 301/302 redirect into the
    set (a redirect cycle, for one), [downloadFile] never settles,
    however many GETs are allowed, and the destination stays an empty
    file. *)
Theorem downloadFile_redirect_cycle_pending net (cycle : string -> Prop) url dest
    (fs : Download.FileSystem) :
  cycle url ->
  (forall u, cycle u -> exists next, Transfer.redirects_to (net u) next /\ cycle next) ->
  forall fuel,
    Download.downloadFile net fuel url dest fs =
      (Download.createWriteStream dest fs, Download.Pending).
Proof.
  intros Hurl Hcycle fuel. apply downloadFile_pending.
  revert url Hurl. induction fuel as [|fuel IH]; intros url Hurl; simpl; [reflexivity|].
  destruct (Hcycle url Hurl) as (next & (code & body & -> & Hcode) & Hnext).
  destruct Hcode as [-> | ->]; simpl; apply IH, Hnext.
Qed.

Lemma downloadFile_redirect_cycle_pending_witness :
  Download.downloadFile looping_server 1000 asset_url install_path ∅ =
    (Download.createWriteStream install_path ∅, Download.Pending).
Proof.
  apply (downloadFile_redirect_cycle_pending looping_server (fun _ => True) asset_url
           install_path ∅ I).
  intros u _. exists u. split; [|exact I].
  exists 302, "". split; [reflexivity|]. right. reflexivity.
Defined.

(** ** More of the binary locator *)

(** X6: [findServerBinary] never returns a path that is not on disk:
    whatever it returns exists and is one of its four candidates, the
    configured path, the installed binary, the release build or the
    debug build. *)
Theorem findServerBinary_sound {path : PathApi} (h : Locator.Host) p :
  Locator.findServerBinary h = Some p ->
  Locator.existsSync h p = true /\
  (Locator.server_path h = Some p \/
   p = Locator.downloadedBinary h \/
   p = Locator.releaseBuild h \/
   p = Locator.debugBuild h).
Proof.
  unfold Locator.findServerBinary.
  destruct (Locator.config_usable h) eqn:Hcfg.
  - intros Hp. apply config_usable_iff in Hcfg as (q & Hq & _ & Hex).
    rewrite Hq in Hp. injection Hp as <-. auto.
  - destruct (Locator.existsSync h (Locator.downloadedBinary h)) eqn:Hdl.
    + intros [= <-]. auto.
    + intros Hfind. apply find_some in Hfind as [Hin Hex].
      split; [exact Hex|]. unfold Locator.devPaths in Hin. simpl in Hin.
      destruct Hin as [<-|[<-|[]]]; auto.
Qed.

Lemma findServerBinary_sound_witness :
  Locator.existsSync configured_host "/opt/elm/elm_lsp" = true /\
  (Locator.server_path configured_host = Some "/opt/elm/elm_lsp" \/
   "/opt/elm/elm_lsp" = Locator.downloadedBinary (path := posix_path) configured_host \/
   "/opt/elm/elm_lsp" = Locator.releaseBuild (path := posix_path) configured_host \/
   "/opt/elm/elm_lsp" = Locator.debugBuild (path := posix_path) configured_host).
Proof.
  apply (findServerBinary_sound (path := posix_path) configured_host "/opt/elm/elm_lsp"
           eq_refl).
Defined.

(** ** More of the reference annotator *)

Section ProviderFacts.
Context {lsp : Client}.
Import CodeLens.


Lemma lensesOf_missing_location symbols acc :
  wellLocated symbols = false ->
  lensesOf symbols acc =
    Throw "TypeError: Cannot read properties of undefined (reading 'range')".
Proof.
  revert acc. induction symbols as [|s rest IH]; intros acc; simpl; [discriminate|].
  rewrite andb_false_iff.
  destruct (wantsLens s); simpl.
  - unfold located. destruct (location s) as [l|]; [|reflexivity].
    intros [Hs|Hrest]; [discriminate Hs|]. apply IH, Hrest.
  - intros [Hs|Hrest]; [discriminate Hs|]. apply IH, Hrest.
Qed.



(** The provider with a client, on an Elm document, with the option on:
    one request, and what follows from its answer. *)
Lemma provideCodeLenses_run document srv :
  languageId document = "elm" ->
  provideCodeLenses true true document srv =
    let req := DocumentSymbolRequest (toString (doc_uri document)) in
    let attempt :=
      match fst (answer srv req) with
      | Ok Null => Ok []
      | Ok response =>
          match flatSymbols response with
          | Some symbols => lensesOf symbols []
          | None => Ok []
          end
      | Throw e => Throw e
      end in
    {| value := match attempt with Ok l => l | Throw _ => [] end;
       requests := [req];
       logged := match attempt with Ok _ => [] | Throw e => ["CodeLens error: " +:+ e] end;
       server_after := snd (answer srv req) |}.
Proof.
  intros Helm. unfold provideCodeLenses. rewrite Helm. cbn -[lensesOf flatSymbols].
  destruct (answer srv _) as [r srv']. cbn -[lensesOf flatSymbols].
  destruct r as [[|l|[|first rest]|c]|e]; cbn -[lensesOf]; try reflexivity.
  destruct (location first); [|reflexivity].
  destruct (lensesOf (first :: rest) []); reflexivity.
Qed.

End ProviderFacts.



(** X8: one symbol of an annotated kind without a location costs the
    document all its annotations: [provideCodeLenses] returns the empty
    list, not the annotations collected before the symbol, and logs the
    [TypeError]. *)
Theorem provideCodeLenses_all_or_nothing {lsp : Client} (document : CodeLens.Document)
    (srv : Server) (first : SymbolInfo) (rest : list SymbolInfo) :
  CodeLens.languageId document = "elm" ->
  fst (answer srv (DocumentSymbolRequest (toString (CodeLens.doc_uri document)))) =
    Ok (SymbolArray (first :: rest)) ->
  located first = true ->
  wellLocated (first :: rest) = false ->
  CodeLens.value (CodeLens.provideCodeLenses true true document srv) = [] /\
  CodeLens.logged (CodeLens.provideCodeLenses true true document srv) =
    ["CodeLens error: TypeError: Cannot read properties of undefined (reading 'range')"].
Proof.
  intros Helm Hanswer Hfirst Hbad.
  rewrite (provideCodeLenses_run _ _ Helm). cbn -[CodeLens.lensesOf wellLocated].
  rewrite Hanswer. cbn -[CodeLens.lensesOf wellLocated].
  unfold located in Hfirst. destruct (location first); [|discriminate Hfirst].
  rewrite (lensesOf_missing_location _ _ Hbad). split; reflexivity.
Qed.

Lemma provideCodeLenses_all_or_nothing_witness :
  CodeLens.value
    (CodeLens.provideCodeLenses (lsp := replay) true true doc_A serves_outline_A_broken) = [].
Proof.
  apply (proj1 (provideCodeLenses_all_or_nothing (lsp := replay) doc_A
           serves_outline_A_broken _ _ eq_refl eq_refl eq_refl eq_refl)).
Defined.

(** X9: a failed request never escapes the provider.  When the
    document-symbol request fails, [provideCodeLenses] returns no
    annotation and logs "CodeLens error: <error>"; when the references
    request fails, [resolveCodeLens] returns the annotation, at its
    range, with the empty command, which is not actionable. *)
Theorem provider_protocol_errors_degrade {lsp : Client} (document : CodeLens.Document)
    (codeLens : CodeLens.CodeLens) (srv : Server) (e : string) :
  CodeLens.languageId document = "elm" ->
  (fst (answer srv (DocumentSymbolRequest (toString (CodeLens.doc_uri document)))) = Throw e ->
   CodeLens.value (CodeLens.provideCodeLenses true true document srv) = [] /\
   CodeLens.logged (CodeLens.provideCodeLenses true true document srv) =
     ["CodeLens error: " +:+ e]) /\
  (fst (answer srv (ReferencesRequest (toString (CodeLens.doc_uri document))
                      (range_start (CodeLens.range codeLens)) false)) = Throw e ->
   CodeLens.value (CodeLens.resolveCodeLens true (Some document) codeLens srv) =
     {| CodeLens.range := CodeLens.range codeLens;
        CodeLens.lens_command := Some CodeLens.emptyCommand |} /\
   CodeLens.actionable CodeLens.emptyCommand = false).
Proof.
  intros Helm. split; intros Hthrow.
  - rewrite (provideCodeLenses_run _ _ Helm). cbn -[CodeLens.lensesOf].
    rewrite Hthrow. split; reflexivity.
  - rewrite resolveCodeLens_run. cbn. rewrite Hthrow. split; reflexivity.
Qed.

Lemma provider_protocol_errors_degrade_witness :
  CodeLens.value (CodeLens.provideCodeLenses (lsp := replay) true true doc_A failing_server)
    = [] /\
  CodeLens.logged (CodeLens.provideCodeLenses (lsp := replay) true true doc_A failing_server)
    = ["CodeLens error: Error: connection is disposed"].
Proof.
  apply (proj1 (provider_protocol_errors_degrade (lsp := replay) doc_A lens_update
           failing_server "Error: connection is disposed" eq_refl) eq_refl).
Defined.

(** X10: [provideCodeLenses] asks the server nothing, and returns no
    annotation, when there is no client, when the document is not an Elm
    document, or when the [codeLens.references] option is off; in every
    other case it sends exactly one request, the document-symbol request
    for the document's own URI. *)
Theorem provideCodeLenses_requests {lsp : Client} (client enabled : bool)
    (document : CodeLens.Document) (srv : Server) :
  (client = false \/ CodeLens.languageId document <> "elm" \/ enabled = false ->
   CodeLens.provideCodeLenses client enabled document srv =
     {| CodeLens.value := []; CodeLens.requests := []; CodeLens.logged := [];
        CodeLens.server_after := srv |}) /\
  (client = true -> CodeLens.languageId document = "elm" -> enabled = true ->
   CodeLens.requests (CodeLens.provideCodeLenses client enabled document srv) =
     [DocumentSymbolRequest (toString (CodeLens.doc_uri document))]).
Proof.
  split.
  - unfold CodeLens.provideCodeLenses.
    intros [-> | [Hlang | ->]]; [reflexivity| |].
    + apply String.eqb_neq in Hlang. rewrite Hlang, orb_true_r. reflexivity.
    + destruct (negb client || _); reflexivity.
  - intros -> Helm ->. rewrite (provideCodeLenses_run _ _ Helm). reflexivity.
Qed.

Lemma provideCodeLenses_requests_witness :
  CodeLens.provideCodeLenses (lsp := replay) true true doc_readme serves_outline_A =
    {| CodeLens.value := []; CodeLens.requests := []; CodeLens.logged := [];
       CodeLens.server_after := serves_outline_A |}.
Proof.
  apply (proj1 (provideCodeLenses_requests (lsp := replay) true true doc_readme
           serves_outline_A)).
  right. left. discriminate.
Defined.

(** X11: the provider tells the flat format by the first entry alone.
    When the first symbol of the list carries no location, no annotation
    is returned and nothing is logged, also when later symbols are
    functions with a location; the same holds for an empty list. *)
Theorem provideCodeLenses_first_entry_decides {lsp : Client} (document : CodeLens.Document)
    (srv : Server) (symbols : list SymbolInfo) :
  CodeLens.languageId document = "elm" ->
  fst (answer srv (DocumentSymbolRequest (toString (CodeLens.doc_uri document)))) =
    Ok (SymbolArray symbols) ->
  hd_error (map located symbols) <> Some true ->
  CodeLens.value (CodeLens.provideCodeLenses true true document srv) = [] /\
  CodeLens.logged (CodeLens.provideCodeLenses true true document srv) = [].
Proof.
  intros Helm Hanswer Hfirst.
  rewrite (provideCodeLenses_run _ _ Helm). cbn -[CodeLens.lensesOf].
  rewrite Hanswer. destruct symbols as [|first rest]; [split; reflexivity|].
  cbn -[CodeLens.lensesOf]. simpl in Hfirst. unfold located in Hfirst.
  destruct (location first); [contradiction Hfirst; reflexivity|].
  split; reflexivity.
Qed.

Lemma provideCodeLenses_first_entry_decides_witness :
  CodeLens.value (CodeLens.provideCodeLenses (lsp := replay) true true doc_A serves_hierarchy)
    = [].
Proof.
  apply (proj1 (provideCodeLenses_first_entry_decides (lsp := replay) doc_A serves_hierarchy
           _ eq_refl eq_refl ltac:(discriminate))).
Defined.

(** ** The installer *)

Section InstallerFacts.
Context {path : PathApi}.
Variable JSON_parse : string -> option Installer.ReleaseInfo.
Import Installer.

(** A download that resolves has landed on a 200 answer, whose body is
    at the destination. *)
Lemma downloadFile_resolved net fuel url dest (fs : Download.FileSystem) :
  snd (Download.downloadFile net fuel url dest fs) = Download.Resolved ->
  exists u loc body,
    Transfer.landing net fuel url = Some u /\
    net u = Download.Response 200 loc body /\
    fst (Download.downloadFile net fuel url dest fs) !! dest = Some body.
Proof.
  intros Hres.
  destruct (downloadFile_settled_landing net fuel url dest fs) as [u Hland];
    [rewrite Hres; discriminate|].
  rewrite (downloadFile_at_landing _ _ _ _ _ _ Hland) in Hres |- *. cbv zeta in *.
  destruct (net u) as [code loc body|partial|err|err] eqn:Hnet in Hres |- *;
    try discriminate Hres.
  - destruct (Nat.eqb_spec code 200) as [->|H200]; simpl in *; [|discriminate Hres].
    exists u, loc, body. split; [exact Hland|]. split; [exact Hnet|].
    apply piped_fresh.
  - destruct (String.eqb u url); discriminate Hres.
Qed.

Lemma prepared_files h d : files (prepared h d) = files d.
Proof. unfold prepared. destruct (existsSync d _); reflexivity. Qed.

Lemma prepared_modes h d : modes (prepared h d) = modes d.
Proof. unfold prepared. destruct (existsSync d _); reflexivity. Qed.

Lemma prepared_storage h d :
  existsSync (prepared h d) (Locator.globalStoragePath h) = true.
Proof.
  unfold prepared. destruct (existsSync d _) eqn:Hex; [exact Hex|].
  unfold existsSync, mkdirSync in *. simpl.
  destruct (files d !! Locator.globalStoragePath h); [reflexivity|].
  apply bool_decide_eq_true. set_solver.
Qed.

End InstallerFacts.

(** X12: on an operating system other than darwin, linux and win32,
    [downloadBinary] fails with "Unsupported platform: <os>-<arch>"
    before it reports progress, fetches the release or downloads
    anything; the storage directory, however, has been created by
    then. *)
Theorem downloadBinary_unsupported_platform {path : PathApi}
    (JSON_parse : string -> option Installer.ReleaseInfo)
    (h : Locator.Host) (arch : string) (api : Installer.ApiExchange)
    (net : Download.Network) (fuel : nat) (d : Installer.Disk) :
  Platform.supported_os (Locator.platform h) = false ->
  Installer.downloadBinary JSON_parse h arch api net fuel d =
    {| Installer.outcome :=
         Installer.Failed
           ("Unsupported platform: " +:+ Locator.platform h +:+ "-" +:+ arch);
       Installer.disk := Installer.prepared h d;
       Installer.reports := [];
       Installer.fetched := false;
       Installer.downloads := [] |} /\
  Installer.existsSync (Installer.prepared h d) (Locator.globalStoragePath h) = true /\
  Installer.files (Installer.prepared h d) = Installer.files d.
Proof.
  intros Hos. unfold Installer.downloadBinary.
  rewrite getPlatformTarget_os, Hos.
  split; [reflexivity|]. split; [apply prepared_storage|apply prepared_files].
Qed.

Lemma downloadBinary_unsupported_platform_witness :
  Installer.outcome
    (Installer.downloadBinary (path := posix_path) parse_v015 bare_freebsd "x64"
       (Installer.ApiBody "{ release v0.1.5 }") redirecting_server 8 empty_disk) =
    Installer.Failed "Unsupported platform: freebsd-x64" /\
  Installer.fetched
    (Installer.downloadBinary (path := posix_path) parse_v015 bare_freebsd "x64"
       (Installer.ApiBody "{ release v0.1.5 }") redirecting_server 8 empty_disk) = false.
Proof.
  rewrite (proj1 (downloadBinary_unsupported_platform (path := posix_path) parse_v015
             bare_freebsd "x64" (Installer.ApiBody "{ release v0.1.5 }")
             redirecting_server 8 empty_disk eq_refl)).
  split; reflexivity.
Defined.

(** X13: on a supported platform, an install that gets no usable
    release gives up before any download, leaving files and permission
    bits as they were: a failed request passes its error on, a body that
    does not parse gives "Failed to parse release info", and a release
    without an asset named [elm_lsp-<target>] ([.exe] appended on
    win32) gives "No binary found for <target>. Available: ..." with
    the names of all assets of the release. *)
Theorem downloadBinary_without_asset {path : PathApi}
    (JSON_parse : string -> option Installer.ReleaseInfo)
    (h : Locator.Host) (arch : string) (api : Installer.ApiExchange)
    (net : Download.Network) (fuel : nat) (d : Installer.Disk) (target : string) :
  Platform.getPlatformTarget (Locator.platform h) arch = Ok target ->
  (forall err,
     api = Installer.ApiError err ->
     Installer.gave_up (Installer.downloadBinary JSON_parse h arch api net fuel d) d err) /\
  (forall data,
     api = Installer.ApiBody data -> JSON_parse data = None ->
     Installer.gave_up (Installer.downloadBinary JSON_parse h arch api net fuel d) d
       "Failed to parse release info") /\
  (forall data release,
     api = Installer.ApiBody data -> JSON_parse data = Some release ->
     (forall a, In a (Installer.assets release) ->
                Installer.asset_name a <>
                "elm_lsp-" +:+ target +:+
                (if String.eqb (Locator.platform h) "win32" then ".exe" else "")) ->
     Installer.gave_up (Installer.downloadBinary JSON_parse h arch api net fuel d) d
       ("No binary found for " +:+ target +:+ ". Available: " +:+
        String.concat ", " (map Installer.asset_name (Installer.assets release)))).
Proof.
  intros Htarget. unfold Installer.downloadBinary, Installer.gave_up. rewrite Htarget.
  split; [|split].
  - intros err ->. cbn -[Installer.prepared]. rewrite prepared_files, prepared_modes. auto.
  - intros data -> Hparse. cbn -[Installer.prepared]. rewrite Hparse. cbn -[Installer.prepared]. rewrite prepared_files, prepared_modes. auto.
  - intros data release -> Hparse Hnone. cbn -[Installer.prepared List.find]. rewrite Hparse.
    fold (Installer.assetName (Locator.platform h) target) in Hnone.
    destruct (List.find _ (Installer.assets release)) as [a|] eqn:Hfind.
    + apply find_some in Hfind as [Hin Hname]. apply String.eqb_eq in Hname.
      exfalso. exact (Hnone a Hin Hname).
    + cbn -[Installer.prepared]. rewrite prepared_files, prepared_modes. auto.
Qed.

Lemma downloadBinary_without_asset_witness :
  Installer.gave_up
    (Installer.downloadBinary (path := posix_path) parse_v015 bare_linux "x64"
       (Installer.ApiBody "rate limit") redirecting_server 8 empty_disk)
    empty_disk "Failed to parse release info".
Proof.
  apply (proj1 (proj2 (downloadBinary_without_asset (path := posix_path) parse_v015
           bare_linux "x64" (Installer.ApiBody "rate limit") redirecting_server 8
           empty_disk "linux-x64" eq_refl)) "rate limit" eq_refl eq_refl).
Defined.

Section InstallerRuns.
Context {path : PathApi}.
Variable JSON_parse : string -> option Installer.ReleaseInfo.
Import Installer.

(** What lies behind a run that handed a URL to [downloadFile]. *)
Lemma downloadBinary_downloads h arch api net fuel d url :
  In url (downloads (downloadBinary JSON_parse h arch api net fuel d)) ->
  let dl := Download.downloadFile net fuel url (Locator.downloadedBinary h)
              (files (prepared h d)) in
  downloads (downloadBinary JSON_parse h arch api net fuel d) = [url] /\
  files (disk (downloadBinary JSON_parse h arch api net fuel d)) = fst dl /\
  match snd dl with
  | Download.Resolved =>
      outcome (downloadBinary JSON_parse h arch api net fuel d) =
        Installed (Locator.downloadedBinary h) /\
      modes (disk (downloadBinary JSON_parse h arch api net fuel d)) =
        if String.eqb (Locator.platform h) "win32" then modes d
        else <[Locator.downloadedBinary h := rwxr_xr_x]> (modes d)
  | Download.Rejected e =>
      outcome (downloadBinary JSON_parse h arch api net fuel d) = Failed e /\
      modes (disk (downloadBinary JSON_parse h arch api net fuel d)) = modes d
  | Download.Pending =>
      outcome (downloadBinary JSON_parse h arch api net fuel d) = Unsettled /\
      modes (disk (downloadBinary JSON_parse h arch api net fuel d)) = modes d
  end.
Proof.
  unfold downloadBinary, Locator.downloadedBinary.
  destruct (Platform.getPlatformTarget _ _) as [target|e]; [|intros []].
  destruct (fetchLatestRelease _ _) as [release|e]; [|intros []].
  destruct (List.find _ _) as [asset|]; [|intros []].
  set (binaryPath := path_join _).
  destruct (Download.downloadFile net fuel (browser_download_url asset) binaryPath
              (files (prepared h d))) as [fs st] eqn:Hdl.
  assert (Hurl : forall r : Run, downloads r = [browser_download_url asset] ->
                                 In url (downloads r) -> url = browser_download_url asset).
  { intros r -> [<-|[]]. reflexivity. }
  destruct st.
  - pose proof (downloadFile_resolved net fuel (browser_download_url asset) binaryPath
                  (files (prepared h d))) as Hres.
    rewrite Hdl in Hres. destruct (Hres eq_refl) as (u & loc & body & _ & _ & Hfile).
    simpl in Hfile.
    destruct (String.eqb (Locator.platform h) "win32"); simpl.
    + intros [<-|[]]. rewrite Hdl. simpl. rewrite prepared_modes. auto.
    + unfold chmodSync, existsSync. simpl. rewrite Hfile. simpl.
      intros [<-|[]]. rewrite Hdl. simpl. rewrite prepared_modes. auto.
  - simpl. intros [<-|[]]. rewrite Hdl. simpl. rewrite prepared_modes. auto.
  - simpl. intros [<-|[]]. rewrite Hdl. simpl. rewrite prepared_modes. auto.
Qed.

(** A run that hands no URL to [downloadFile] leaves files and
    permission bits alone, and does not install. *)
Lemma downloadBinary_no_download h arch api net fuel d :
  downloads (downloadBinary JSON_parse h arch api net fuel d) = [] ->
  files (disk (downloadBinary JSON_parse h arch api net fuel d)) = files d /\
  modes (disk (downloadBinary JSON_parse h arch api net fuel d)) = modes d /\
  exists msg, outcome (downloadBinary JSON_parse h arch api net fuel d) = Failed msg.
Proof.
  unfold downloadBinary.
  destruct (Platform.getPlatformTarget _ _) as [target|e];
    [|intros _; cbn -[prepared]; rewrite prepared_files, prepared_modes; eauto].
  destruct (fetchLatestRelease _ _) as [release|e];
    [|intros _; cbn -[prepared]; rewrite prepared_files, prepared_modes; eauto].
  destruct (List.find _ _) as [asset|];
    [|intros _; cbn -[prepared]; rewrite prepared_files, prepared_modes; eauto].
  destruct (Download.downloadFile _ _ _ _ _) as [fs [| |]];
    [destruct (negb _); [destruct (chmodSync _ _ _)|]| |]; discriminate.
Qed.

End InstallerRuns.

(** When [downloadBinary] resolves, its value is the path
    [<storage>/<BINARY_NAME>], one URL was downloaded, the file at that
    path holds the body of the 200 answer on which the redirects from
    that URL ended, and the permission bits of the file are set to 0o755
    on every platform but win32, where no bits are touched. *)
Lemma installed_run {path : PathApi}
    (JSON_parse : string -> option Installer.ReleaseInfo)
    (h : Locator.Host) (arch : string) (api : Installer.ApiExchange)
    (net : Download.Network) (fuel : nat) (d : Installer.Disk) (p : string) :
  Installer.outcome (Installer.downloadBinary JSON_parse h arch api net fuel d) =
    Installer.Installed p ->
  p = path_join [Locator.globalStoragePath h; Locator.BINARY_NAME h] /\
  (exists url u loc body,
     Installer.downloads (Installer.downloadBinary JSON_parse h arch api net fuel d) = [url] /\
     Transfer.landing net fuel url = Some u /\
     net u = Download.Response 200 loc body /\
     Installer.files (Installer.disk (Installer.downloadBinary JSON_parse h arch api net fuel d))
       !! p = Some body) /\
  Installer.modes (Installer.disk (Installer.downloadBinary JSON_parse h arch api net fuel d)) =
    if String.eqb (Locator.platform h) "win32" then Installer.modes d
    else <[p := Installer.rwxr_xr_x]> (Installer.modes d).
Proof.
  intros Hout.
  destruct (Installer.downloads (Installer.downloadBinary JSON_parse h arch api net fuel d))
    as [|url more] eqn:Hdls.
  { destruct (downloadBinary_no_download JSON_parse _ _ _ _ _ _ Hdls) as (_ & _ & msg & Hmsg).
    rewrite Hmsg in Hout. discriminate Hout. }
  pose proof (downloadBinary_downloads JSON_parse h arch api net fuel d url) as Hrun.
  rewrite Hdls in Hrun. specialize (Hrun (or_introl eq_refl)).
  cbv zeta in Hrun. destruct Hrun as (Hone & Hfiles & Hcase).
  destruct (snd (Download.downloadFile net fuel url (Locator.downloadedBinary h)
                   (Installer.files (Installer.prepared h d)))) eqn:Hst;
    destruct Hcase as [Hout' Hmodes]; rewrite Hout' in Hout; try discriminate Hout.
  injection Hout as <-.
  split; [reflexivity|]. split; [|exact Hmodes].
  destruct (downloadFile_resolved _ _ _ _ _ Hst) as (u & loc & body & Hland & Hnet & Hbody).
  exists url, u, loc, body. rewrite Hfiles. auto.
Qed.

(** X14: when [downloadBinary] resolves, its value is the path
    [<storage>/<BINARY_NAME>], one URL was downloaded, the file at that
    path holds the body of the 200 answer on which the redirects from
    that URL ended, and the permission bits of the file are set to 0o755
    on every platform but win32, where no bits are touched. *)
Theorem downloadBinary_installed {path : PathApi}
    (JSON_parse : string -> option Installer.ReleaseInfo)
    (h : Locator.Host) (arch : string) (api : Installer.ApiExchange)
    (net : Download.Network) (fuel : nat) (d : Installer.Disk) (p : string) :
  Installer.outcome (Installer.downloadBinary JSON_parse h arch api net fuel d) =
    Installer.Installed p ->
  p = path_join [Locator.globalStoragePath h; Locator.BINARY_NAME h] /\
  (exists url u loc body,
     Installer.downloads (Installer.downloadBinary JSON_parse h arch api net fuel d) = [url] /\
     Transfer.landing net fuel url = Some u /\
     net u = Download.Response 200 loc body /\
     Installer.files (Installer.disk (Installer.downloadBinary JSON_parse h arch api net fuel d))
       !! p = Some body) /\
  Installer.modes (Installer.disk (Installer.downloadBinary JSON_parse h arch api net fuel d)) =
    if String.eqb (Locator.platform h) "win32" then Installer.modes d
    else <[p := Installer.rwxr_xr_x]> (Installer.modes d).
Proof. apply installed_run. Qed.

Lemma downloadBinary_installed_witness :
  "/home/u/.config/Code/User/globalStorage/elm-lsp/elm_lsp" =
    path_join (PathApi := posix_path)
      [Locator.globalStoragePath bare_linux; Locator.BINARY_NAME bare_linux] /\
  Installer.modes
    (Installer.disk
       (Installer.downloadBinary (path := posix_path) parse_v015 bare_linux "x64"
          (Installer.ApiBody "{ release v0.1.5 }") redirecting_server 8 empty_disk)) =
    <["/home/u/.config/Code/User/globalStorage/elm-lsp/elm_lsp" := 493]> ∅.
Proof.
  destruct (downloadBinary_installed (path := posix_path) parse_v015 bare_linux "x64"
              (Installer.ApiBody "{ release v0.1.5 }") redirecting_server 8 empty_disk
              "/home/u/.config/Code/User/globalStorage/elm-lsp/elm_lsp" eq_refl)
    as (Hpath & _ & Hmodes).
  split; [exact Hpath|exact Hmodes].
Defined.

(** X15: [downloadBinary] makes a file executable only when it
    resolves: in every run that does not resolve, the permission bits
    on the disk are what they were. *)
Theorem downloadBinary_chmod_only_on_success {path : PathApi}
    (JSON_parse : string -> option Installer.ReleaseInfo)
    (h : Locator.Host) (arch : string) (api : Installer.ApiExchange)
    (net : Download.Network) (fuel : nat) (d : Installer.Disk) :
  (forall p,
     Installer.outcome (Installer.downloadBinary JSON_parse h arch api net fuel d) <>
     Installer.Installed p) ->
  Installer.modes (Installer.disk (Installer.downloadBinary JSON_parse h arch api net fuel d)) =
    Installer.modes d.
Proof.
  intros Hnot.
  destruct (Installer.downloads (Installer.downloadBinary JSON_parse h arch api net fuel d))
    as [|url more] eqn:Hdls.
  { apply (downloadBinary_no_download JSON_parse _ _ _ _ _ _ Hdls). }
  pose proof (downloadBinary_downloads JSON_parse h arch api net fuel d url) as Hrun.
  rewrite Hdls in Hrun. specialize (Hrun (or_introl eq_refl)).
  cbv zeta in Hrun. destruct Hrun as (_ & _ & Hcase).
  destruct (snd (Download.downloadFile net fuel url (Locator.downloadedBinary h)
                   (Installer.files (Installer.prepared h d))));
    destruct Hcase as [Hout Hmodes]; [|exact Hmodes|exact Hmodes].
  exfalso. exact (Hnot _ Hout).
Qed.

Lemma downloadBinary_chmod_only_on_success_witness :
  Installer.modes
    (Installer.disk
       (Installer.downloadBinary (path := posix_path) parse_v015 bare_linux "x64"
          (Installer.ApiBody "{ release v0.1.5 }") Download.not_found_server 8 empty_disk)) = ∅.
Proof.
  apply (downloadBinary_chmod_only_on_success (path := posix_path) parse_v015 bare_linux "x64"
           (Installer.ApiBody "{ release v0.1.5 }") Download.not_found_server 8 empty_disk).
  intros p. discriminate.
Defined.

(** X16: installing and locating compose.  After [downloadBinary] has
    resolved with a path, [findServerBinary] on the resulting disk
    returns that path, unless a configured path is set and exists, which
    still comes first. *)
Theorem install_then_locate {path : PathApi}
    (JSON_parse : string -> option Installer.ReleaseInfo)
    (h : Locator.Host) (arch : string) (api : Installer.ApiExchange)
    (net : Download.Network) (fuel : nat) (d : Installer.Disk) (p : string) :
  Installer.outcome (Installer.downloadBinary JSON_parse h arch api net fuel d) =
    Installer.Installed p ->
  Locator.findServerBinary
    (Installer.on_disk
       (Installer.disk (Installer.downloadBinary JSON_parse h arch api net fuel d)) h) =
    if Locator.config_usable
         (Installer.on_disk
            (Installer.disk (Installer.downloadBinary JSON_parse h arch api net fuel d)) h)
    then Locator.server_path h
    else Some p.
Proof.
  intros Hout.
  destruct (installed_run JSON_parse h arch api net fuel d p Hout)
    as (Hp & (url & u & loc & body & _ & _ & _ & Hfile) & _).
  unfold Locator.findServerBinary.
  destruct (Locator.config_usable _); [reflexivity|].
  change (Locator.downloadedBinary (Installer.on_disk _ h))
    with (path_join [Locator.globalStoragePath h; Locator.BINARY_NAME h]).
  rewrite <- Hp.
  cbn [Installer.on_disk Locator.existsSync].
  unfold Installer.existsSync. rewrite Hfile. reflexivity.
Qed.

Lemma install_then_locate_witness :
  Locator.findServerBinary (path := posix_path)
    (Installer.on_disk
       (Installer.disk
          (Installer.downloadBinary (path := posix_path) parse_v015 bare_linux "x64"
             (Installer.ApiBody "{ release v0.1.5 }") redirecting_server 8 empty_disk))
       bare_linux) =
    Some "/home/u/.config/Code/User/globalStorage/elm-lsp/elm_lsp".
Proof.
  apply (install_then_locate (path := posix_path) parse_v015 bare_linux "x64"
           (Installer.ApiBody "{ release v0.1.5 }") redirecting_server 8 empty_disk
           "/home/u/.config/Code/User/globalStorage/elm-lsp/elm_lsp" eq_refl).
Defined.

(** X17: a download that fails on a status leaves its mark on the next
    lookup.  When [downloadBinary] fails because the redirects from the
    asset URL ended on an answer with a status other than 200, the file
    at [<storage>/<BINARY_NAME>] is empty, and [findServerBinary] on the
    resulting disk, with no usable configured path, returns that
    path. *)
Theorem failed_download_still_located {path : PathApi}
    (JSON_parse : string -> option Installer.ReleaseInfo)
    (h : Locator.Host) (arch : string) (api : Installer.ApiExchange)
    (net : Download.Network) (fuel : nat) (d : Installer.Disk)
    (url u : string) (code : nat) (loc body msg : string) :
  In url (Installer.downloads (Installer.downloadBinary JSON_parse h arch api net fuel d)) ->
  Installer.outcome (Installer.downloadBinary JSON_parse h arch api net fuel d) =
    Installer.Failed msg ->
  Transfer.landing net fuel url = Some u ->
  net u = Download.Response code loc body ->
  Locator.config_usable
    (Installer.on_disk
       (Installer.disk (Installer.downloadBinary JSON_parse h arch api net fuel d)) h) = false ->
  msg = "Download failed: " +:+ string_of_nat code /\
  Installer.files (Installer.disk (Installer.downloadBinary JSON_parse h arch api net fuel d))
    !! Locator.downloadedBinary h = Some "" /\
  Locator.findServerBinary
    (Installer.on_disk
       (Installer.disk (Installer.downloadBinary JSON_parse h arch api net fuel d)) h) =
    Some (Locator.downloadedBinary h).
Proof.
  intros Hin Hout Hland Hnet Hcfg.
  destruct (downloadBinary_downloads JSON_parse h arch api net fuel d url Hin)
    as (_ & Hfiles & Hcase).
  rewrite (downloadFile_at_landing _ _ _ _ _ _ Hland), Hnet in Hfiles, Hcase.
  cbv zeta in Hfiles, Hcase.
  destruct (code =? 200)%nat; cbn [negb fst snd] in Hfiles, Hcase;
    destruct Hcase as [Hout' _]; rewrite Hout' in Hout; [discriminate Hout|].
  injection Hout as <-.
  assert (Hfile : Installer.files
                    (Installer.disk (Installer.downloadBinary JSON_parse h arch api net fuel d))
                    !! Locator.downloadedBinary h = Some "").
  { rewrite Hfiles. unfold Download.createWriteStream. apply lookup_insert_eq. }
  split; [reflexivity|]. split; [exact Hfile|].
  unfold Locator.findServerBinary. rewrite Hcfg.
  change (Locator.downloadedBinary (Installer.on_disk _ h))
    with (Locator.downloadedBinary h).
  cbn [Installer.on_disk Locator.existsSync].
  unfold Installer.existsSync. rewrite Hfile. reflexivity.
Qed.

Lemma failed_download_still_located_witness :
  Locator.findServerBinary (path := posix_path)
    (Installer.on_disk
       (Installer.disk
          (Installer.downloadBinary (path := posix_path) parse_v015 bare_linux "x64"
             (Installer.ApiBody "{ release v0.1.5 }") Download.not_found_server 8 empty_disk))
       bare_linux) =
    Some "/home/u/.config/Code/User/globalStorage/elm-lsp/elm_lsp".
Proof.
  apply (proj2 (proj2 (failed_download_still_located (path := posix_path) parse_v015
           bare_linux "x64" (Installer.ApiBody "{ release v0.1.5 }")
           Download.not_found_server 8 empty_disk asset_url asset_url 404 "" "Not Found"
           "Download failed: 404" (or_introl eq_refl) eq_refl eq_refl eq_refl eq_refl))).
Defined.

(** X26: [downloadBinary] downloads nothing but the binary of its own
    target: a URL handed to [downloadFile] is the download URL of an
    asset of the fetched release whose name is exactly
    [elm_lsp-<target>], with [.exe] appended on win32, where the target
    is the one [getPlatformTarget] returned. *)
Theorem downloadBinary_asset_choice {path : PathApi}
    (JSON_parse : string -> option Installer.ReleaseInfo)
    (h : Locator.Host) (arch : string) (api : Installer.ApiExchange)
    (net : Download.Network) (fuel : nat) (d : Installer.Disk) (url : string) :
  In url (Installer.downloads (Installer.downloadBinary JSON_parse h arch api net fuel d)) ->
  exists target release asset,
    Platform.getPlatformTarget (Locator.platform h) arch = Ok target /\
    Installer.fetchLatestRelease JSON_parse api = Ok release /\
    In asset (Installer.assets release) /\
    Installer.asset_name asset =
      "elm_lsp-" +:+ target +:+
      (if String.eqb (Locator.platform h) "win32" then ".exe" else "") /\
    url = Installer.browser_download_url asset.
Proof.
  unfold Installer.downloadBinary.
  destruct (Platform.getPlatformTarget _ _) as [target|e]; [|intros []].
  destruct (Installer.fetchLatestRelease _ _) as [release|e]; [|intros []].
  destruct (List.find _ _) as [asset|] eqn:Hfind; [|intros []].
  apply find_some in Hfind as [Hin Hname]. apply String.eqb_eq in Hname.
  intros Hurl. exists target, release, asset.
  repeat split; try assumption.
  destruct (Download.downloadFile _ _ _ _ _) as [fs [| |]];
    [destruct (negb _); [destruct (Installer.chmodSync _ _ _)|]| |];
    destruct Hurl as [<-|[]]; reflexivity.
Qed.

Lemma downloadBinary_asset_choice_witness :
  exists target release asset,
    Platform.getPlatformTarget (Locator.platform bare_linux) "x64" = Ok target /\
    Installer.fetchLatestRelease parse_v015 (Installer.ApiBody "{ release v0.1.5 }") =
      Ok release /\
    In asset (Installer.assets release) /\
    Installer.asset_name asset =
      "elm_lsp-" +:+ target +:+
      (if String.eqb (Locator.platform bare_linux) "win32" then ".exe" else "") /\
    asset_url = Installer.browser_download_url asset.
Proof.
  apply (downloadBinary_asset_choice (path := posix_path) parse_v015 bare_linux "x64"
           (Installer.ApiBody "{ release v0.1.5 }") redirecting_server 8 empty_disk asset_url
           (or_introl eq_refl)).
Defined.

(** ** Activation and deactivation *)

Section ActivationFacts.
Import Activation.

Lemma launch_started serverPath asked w :
  launch serverPath (Ok tt) asked w =
    {| world :=
         Restart.notify (Restart.InformationMessage "Elm LSP started")
           (Restart.set_live (Restart.live w ∪ {[Restart.created w]})
              (fst (Restart.startLanguageClient serverPath w)));
       subscriptions := all_subscriptions;
       errorMessages := []; prompted := asked; settingsOpened := [] |}.
Proof. reflexivity. Qed.

Lemma launch_failed serverPath e asked w :
  launch serverPath (Throw e) asked w =
    {| world := fst (Restart.startLanguageClient serverPath w);
       subscriptions := [];
       errorMessages := ["Failed to start Elm LSP: " +:+ printed e];
       prompted := asked; settingsOpened := [] |}.
Proof. reflexivity. Qed.

(** Either [activate] launches, or it leaves the world alone. *)
Lemma activate_cases found choice downloaded started w :
  (has_server_path found choice downloaded = true /\
   exists serverPath,
     activate found choice downloaded started w =
       launch serverPath started (negb (truthy_string found)) w) \/
  (has_server_path found choice downloaded = false /\
   world (activate found choice downloaded started w) = w /\
   subscriptions (activate found choice downloaded started w) = []).
Proof.
  unfold activate, has_server_path.
  destruct (truthy_string found); simpl; [left; eauto|].
  destruct choice; [destruct downloaded| |]; simpl; eauto.
Qed.

End ActivationFacts.

(** X18: [activate] registers everything or nothing.  When a server
    path is available (found, or downloaded at the user's request) and
    the client starts, the code-lens provider, the two listeners and
    the three commands are registered and exactly one connection is up;
    in every other case nothing is registered, not even the restart
    command, and no connection is up.  Either way no restart is in
    flight and only the connection of [client] can be up. *)
Theorem activate_all_or_nothing (found : option string) (choice : Activation.Choice)
    (downloaded : result string) (started : result unit) (w : Restart.World) :
  Restart.isRestarting w = false ->
  Restart.live w = ∅ ->
  Restart.quiescent
    (Activation.system_of (Activation.activate found choice downloaded started w)) /\
  (if has_server_path found choice downloaded &&
      match started with Ok _ => true | Throw _ => false end
   then
     Activation.subscriptions (Activation.activate found choice downloaded started w) =
       all_subscriptions /\
     Restart.connections
       (Activation.system_of (Activation.activate found choice downloaded started w)) = 1
   else
     Activation.subscriptions (Activation.activate found choice downloaded started w) = [] /\
     Restart.connections
       (Activation.system_of (Activation.activate found choice downloaded started w)) = 0).
Proof.
  intros Hflag Hlive.
  destruct (activate_cases found choice downloaded started w)
    as [[-> [serverPath ->]] | (-> & Hworld & Hsubs)].
  - destruct started as [[]|e]; simpl.
    + unfold Restart.quiescent, Restart.connections; simpl.
      rewrite Hlive, union_empty_l_L.
      split; [|split; [reflexivity|apply size_singleton]].
      split; [exact Hflag|]. split; [reflexivity|].
      intros c Hc. rewrite ?Hlive, ?union_empty_l_L in Hc.
      apply elem_of_singleton in Hc. congruence.
    + unfold Restart.quiescent, Restart.connections; simpl. rewrite Hlive.
      split; [|split; [reflexivity|apply size_empty]].
      split; [exact Hflag|]. split; [reflexivity|].
      intros c Hc. apply elem_of_empty in Hc. contradiction.
  - simpl. unfold Restart.quiescent, Restart.connections, Activation.system_of; simpl.
    rewrite Hworld, Hlive.
    split; [|split; [exact Hsubs|apply size_empty]].
    split; [exact Hflag|]. split; [reflexivity|].
    intros c Hc. apply elem_of_empty in Hc. contradiction.
Qed.

Lemma activate_all_or_nothing_witness :
  Activation.subscriptions
    (Activation.activate None Activation.ChooseDownload (Ok "/store/elm_lsp")
       (Throw "spawn EACCES") Activation.fresh) = [] /\
  Restart.connections
    (Activation.system_of
       (Activation.activate None Activation.ChooseDownload (Ok "/store/elm_lsp")
          (Throw "spawn EACCES") Activation.fresh)) = 0.
Proof.
  apply (proj2 (activate_all_or_nothing None Activation.ChooseDownload (Ok "/store/elm_lsp")
           (Throw "spawn EACCES") Activation.fresh eq_refl eq_refl)).
Defined.

(** X19: the user is asked about a download exactly when
    [findServerBinary] found nothing; when it found a path, the answer
    the user would give and the outcome a download would have play no
    part in what [activate] does. *)
Theorem activate_asks_only_when_not_found (found : option string)
    (choice choice' : Activation.Choice) (downloaded downloaded' : result string)
    (started : result unit) (w : Restart.World) :
  Activation.prompted (Activation.activate found choice downloaded started w) =
    negb (truthy_string found) /\
  (truthy_string found = true ->
   Activation.activate found choice downloaded started w =
   Activation.activate found choice' downloaded' started w).
Proof.
  unfold Activation.activate. destruct (truthy_string found); simpl.
  - split; [destruct started; reflexivity|reflexivity].
  - split; [|discriminate].
    destruct choice; [destruct downloaded; [destruct started|]| |]; reflexivity.
Qed.

Lemma activate_asks_only_when_not_found_witness :
  Activation.activate (Some "/opt/elm/elm_lsp") Activation.Dismiss (Throw "offline")
    (Ok tt) Activation.fresh =
  Activation.activate (Some "/opt/elm/elm_lsp") Activation.ChooseDownload (Ok "/store/elm_lsp")
    (Ok tt) Activation.fresh.
Proof.
  apply (proj2 (activate_asks_only_when_not_found (Some "/opt/elm/elm_lsp")
           Activation.Dismiss Activation.ChooseDownload (Throw "offline")
           (Ok "/store/elm_lsp") (Ok tt) Activation.fresh) eq_refl).
Defined.

(** X20: without a server path [activate] starts nothing: the world is
    untouched ([client] stays unassigned, no call is made).  The user
    gets an error message "Failed to download: ..." when the download
    failed, the settings page of [elm-lsp.server.path] when
    "Configure Path" was chosen, and nothing when the question was
    dismissed. *)
Theorem activate_without_server_path (found : option string) (choice : Activation.Choice)
    (downloaded : result string) (started : result unit) (w : Restart.World) :
  has_server_path found choice downloaded = false ->
  Activation.world (Activation.activate found choice downloaded started w) = w /\
  match choice with
  | Activation.ChooseDownload =>
      exists e,
        downloaded = Throw e /\
        Activation.errorMessages (Activation.activate found choice downloaded started w) =
          ["Failed to download: Error: " +:+ e] /\
        Activation.settingsOpened (Activation.activate found choice downloaded started w) = []
  | Activation.ChooseConfigurePath =>
      Activation.errorMessages (Activation.activate found choice downloaded started w) = [] /\
      Activation.settingsOpened (Activation.activate found choice downloaded started w) =
        ["elm-lsp.server.path"]
  | Activation.Dismiss =>
      Activation.errorMessages (Activation.activate found choice downloaded started w) = [] /\
      Activation.settingsOpened (Activation.activate found choice downloaded started w) = []
  end.
Proof.
  unfold has_server_path, Activation.activate.
  destruct (truthy_string found); simpl; [discriminate|].
  destruct choice; [destruct downloaded as [p|e]; [discriminate|]| |]; intros _; simpl; eauto.
Qed.

Lemma activate_without_server_path_witness :
  Activation.world
    (Activation.activate (Some "") Activation.ChooseConfigurePath (Ok "/store/elm_lsp")
       (Ok tt) Activation.fresh) = Activation.fresh.
Proof.
  apply (proj1 (activate_without_server_path (Some "") Activation.ChooseConfigurePath
           (Ok "/store/elm_lsp") (Ok tt) Activation.fresh eq_refl)).
Defined.

(** X21: [deactivate] leaves no server behind.  In every state the
    supervisor reaches from a quiescent one, once no restart is in
    flight, a [deactivate] whose [client.stop()] succeeds ends with no
    connection up, and no settlement is awaited that could still start
    one; without a client it makes no call at all. *)
Theorem deactivate_leaves_no_connection (sys0 sys : Restart.System)
    (es : list Restart.Event) :
  Restart.quiescent sys0 ->
  Restart.run sys0 es = Some sys ->
  Restart.tasks sys = [] ->
  snd (Activation.deactivate (Ok tt) (Restart.world sys)) = Ok tt /\
  Restart.live (fst (Activation.deactivate (Ok tt) (Restart.world sys))) = ∅ /\
  (Restart.client (Restart.world sys) = None ->
   fst (Activation.deactivate (Ok tt) (Restart.world sys)) = Restart.world sys) /\
  (forall i s,
     Restart.step
       {| Restart.world := fst (Activation.deactivate (Ok tt) (Restart.world sys));
          Restart.tasks := Restart.tasks sys |}
       (Restart.Settles i s) = None).
Proof.
  intros Hq Hrun Hidle.
  pose proof (invariant_run es _ _ (quiescent_invariant _ Hq) Hrun) as [Hlive _].
  split; [|split; [|split]].
  - unfold Activation.deactivate.
    destruct (Restart.client (Restart.world sys)); reflexivity.
  - unfold Activation.deactivate.
    destruct (Restart.client (Restart.world sys)) as [c|] eqn:Hc; simpl.
    + apply stopped_none_live. exact Hlive.
    + apply no_client_none_live. exact Hlive.
  - intros Hc. unfold Activation.deactivate. rewrite Hc. reflexivity.
  - intros i s. unfold Restart.step. cbn [Restart.tasks]. rewrite Hidle. reflexivity.
Qed.

Lemma deactivate_leaves_no_connection_witness :
  exists sys,
    Restart.run Restart.activated Restart.restart_twice = Some sys /\
    Restart.live (fst (Activation.deactivate (Ok tt) (Restart.world sys))) = ∅.
Proof.
  eexists. split; [reflexivity|].
  apply (proj1 (proj2 (deactivate_leaves_no_connection Restart.activated _
           Restart.restart_twice activated_quiescent eq_refl eq_refl))).
Defined.

(** ** More of the server supervisor *)

(** X22: how a restart fails.  In every state the supervisor reaches
    from a quiescent one: when stopping the old client throws, the
    restart ends there, with no lookup and no start, [client] still
    names the old client and no notice is shown; when starting the new
    client throws, [client] names the new client, no connection is up
    and "Elm LSP restarted" is not shown.  In both cases the flag is
    down and no invocation is left suspended. *)
Theorem restart_failure_modes (sys0 sys sys' : Restart.System) (es : list Restart.Event)
    (i : nat) (e : string) :
  Restart.quiescent sys0 ->
  Restart.run sys0 es = Some sys ->
  (Restart.step sys (Restart.Settles i (Restart.StopSettled (Throw e))) = Some sys' ->
   Restart.world sys' = Restart.set_isRestarting false (Restart.world sys) /\
   Restart.tasks sys' = []) /\
  (Restart.step sys (Restart.Settles i (Restart.StartSettled (Throw e))) = Some sys' ->
   Restart.world sys' = Restart.set_isRestarting false (Restart.world sys) /\
   Restart.tasks sys' = [] /\
   Restart.connections sys' = 0 /\
   exists c, Restart.client (Restart.world sys') = Some c /\
             Restart.tasks sys = [Restart.AwaitStart c]).
Proof.
  intros Hq Hrun.
  pose proof (invariant_run es _ _ (quiescent_invariant _ Hq) Hrun) as [Hlive Htasks].
  unfold Restart.step.
  destruct (Restart.tasks sys) as [|pc [|? ?]] eqn:Ht; [split; discriminate| |contradiction].
  destruct Htasks as [Hflag Hpc].
  destruct i as [|i]; [|split; destruct i; discriminate].
  simpl. split.
  - destruct pc; simpl; try discriminate. intros [= <-]. split; reflexivity.
  - destruct pc as [c| |c]; simpl; try discriminate. intros [= <-].
    destruct Hpc as [Hclient Hnone].
    split; [reflexivity|]. split; [reflexivity|].
    split; [unfold Restart.connections; simpl; rewrite Hnone; apply size_empty|].
    exists c. split; [exact Hclient|reflexivity].
Qed.

Lemma restart_failure_modes_witness :
  exists sys',
    Restart.step
      {| Restart.world :=
           Restart.record_call (Restart.CallStop 0)
             (Restart.set_isRestarting true (Restart.world Restart.activated));
         Restart.tasks := [Restart.AwaitStop 0] |}
      (Restart.Settles 0 (Restart.StopSettled (Throw "stop timed out"))) = Some sys' /\
    Restart.tasks sys' = [].
Proof.
  eexists. split; [reflexivity|].
  apply (proj1 (restart_failure_modes Restart.activated _ _ [Restart.Invoke] 0
           "stop timed out" activated_quiescent eq_refl) eq_refl).
Defined.

(** ** More of the rename synchronizer *)

Section RenameMore.
Context {path : PathApi} {lsp : Client}.
Import Rename.

Lemma readEdits_In uri edits rep :
  In rep (fst (readEdits uri edits)) ->
  exists te r,
    In te edits /\ edit_range te = Some r /\
    rep = {| replace_uri := uri; replace_range := inOrder r; replace_text := newText te |}.
Proof.
  induction edits as [|te rest IH]; simpl; [intros []|].
  destruct (edit_range te) as [r|] eqn:Hr; [|intros []].
  destruct (readEdits uri rest) as [l ok]. simpl in *.
  intros [<-|Hin].
  - exists te, r. auto.
  - destruct (IH Hin) as (te' & r' & Hin' & Hr' & ->). exists te', r'. auto.
Qed.

Lemma readChanges_In entries rep :
  In rep (fst (readChanges entries)) ->
  exists uri edits te r,
    In (uri, edits) entries /\ In te edits /\ edit_range te = Some r /\
    rep = {| replace_uri := uri; replace_range := inOrder r; replace_text := newText te |}.
Proof.
  induction entries as [|[uri edits] rest IH]; simpl; [intros []|].
  pose proof (readEdits_In uri edits rep) as Hhere.
  destruct (readEdits uri edits) as [l ok]. simpl in Hhere.
  assert (Hl : In rep l ->
               exists uri' edits' te r,
                 ((uri, edits) = (uri', edits') \/ In (uri', edits') rest) /\
                 In te edits' /\ edit_range te = Some r /\
                 rep = {| replace_uri := uri'; replace_range := inOrder r;
                          replace_text := newText te |}).
  { intros Hin. destruct (Hhere Hin) as (te & r & ? & ? & ?). exists uri, edits, te, r. auto. }
  destruct ok; [|exact Hl].
  destruct (readChanges rest) as [l' ok']. simpl in *.
  intros Hin. apply in_app_or in Hin as [Hin|Hin]; [exact (Hl Hin)|].
  destruct (IH Hin) as (uri' & edits' & te & r & ? & ? & ? & ?).
  exists uri', edits', te, r. auto.
Qed.

(** One answer gives at most one line or one warning, never both. *)
Lemma feedback_at_most_one r :
  length (linesOf r) + length (warningsOf r) <= 1.
Proof.
  unfold linesOf, warningsOf.
  destruct r as [[| | |c]|e]; simpl; try lia.
  destruct (success c); [destruct (wellFormed _); simpl; lia|].
  destruct (truthy_string (error c)); simpl; lia.
Qed.

Lemma feedback_bounded rs :
  length (flat_map linesOf rs) + length (flat_map warningsOf rs) <= length rs.
Proof.
  induction rs as [|r rs IH]; simpl; [lia|].
  rewrite !length_app. pose proof (feedback_at_most_one r). lia.
Qed.

End RenameMore.

(** X23: every replacement of the workspace edit that the handler
    returns comes from a result that reports success: it is one of the
    edits listed in the result's [changes], under the URI it is listed
    for and with its text as the server gave it; its range has the two
    positions of the edit's range, in document order (the
    [vscode.Range] constructor swaps a range written end first).  The
    handler invents no edit, and changes no URI, text or position. *)
Theorem rename_edits_provenance {path : PathApi} {lsp : Client}
    (getWorkspaceFolder : Uri -> option string)
    (files : list Rename.FilePair) (st : Rename.St)
    (edit : Rename.WorkspaceEdit) (rep : Rename.Replace) :
  fst (Rename.onWillRenameFiles getWorkspaceFolder true files st) =
    Rename.WaitUntil (Ok edit) ->
  In rep edit ->
  exists c entries edits te r,
    In (Ok (CommandObject c))
       (Rename.answers (Rename.server st)
          (map (Rename.requestFor getWorkspaceFolder)
               (List.filter Rename.isElmPair files))) /\
    success c = true /\
    changes c = Some entries /\
    In (Rename.replace_uri rep, edits) entries /\
    In te edits /\
    edit_range te = Some r /\
    newText te = Rename.replace_text rep /\
    isBefore (range_end (Rename.replace_range rep))
             (range_start (Rename.replace_range rep)) = false /\
    (Rename.replace_range rep = r \/
     Rename.replace_range rep =
       {| range_start := range_end r; range_end := range_start r |}) /\
    (isBefore (range_end r) (range_start r) = false -> Rename.replace_range rep = r).
Proof.
  rewrite onWillRenameFiles_run.
  destruct (true && negb _); [|discriminate].
  cbn [fst Rename.afterBatch Rename.workspaceEdit Rename.fresh_edit Rename.server app].
  intros [= <-] Hin.
  apply in_flat_map in Hin as (r0 & Hr & Hin).
  unfold Rename.contribution, Rename.changesOf in Hin.
  destruct r0 as [[| | |c]|e]; try contradiction.
  destruct (success c) eqn:Hok; [|contradiction].
  destruct (changes c) as [entries|] eqn:Hch; [|contradiction].
  apply readChanges_In in Hin as (uri & edits & te & r & Hentry & Hte & Hrange & ->).
  exists c, entries, edits, te, r. cbn [Rename.replace_uri Rename.replace_range
    Rename.replace_text].
  repeat split; try assumption; try reflexivity.
  - apply inOrder_sorted.
  - apply inOrder_cases.
  - apply inOrder_forward.
Qed.

Lemma rename_edits_provenance_witness :
  exists c entries edits te r,
    In (Ok (CommandObject c))
       (Rename.answers (lsp := replay) (Rename.server backward_state)
          (map (Rename.requestFor (path := posix_path) proj_workspace)
               (List.filter Rename.isElmPair [rename_Foo; move_Foo]))) /\
    success c = true /\
    changes c = Some entries /\
    In ("file:///proj/src/Main.elm", edits) entries /\
    In te edits /\
    edit_range te = Some r /\
    newText te = "Bar" /\
    isBefore {| line := 2; character := 10 |} {| line := 2; character := 7 |} = false /\
    (wireRange 2 7 2 10 = r \/
     wireRange 2 7 2 10 = {| range_start := range_end r; range_end := range_start r |}) /\
    (isBefore (range_end r) (range_start r) = false -> wireRange 2 7 2 10 = r).
Proof.
  apply (rename_edits_provenance (path := posix_path) (lsp := replay) proj_workspace
           [rename_Foo; move_Foo] backward_state _
           {| Rename.replace_uri := "file:///proj/src/Main.elm";
              Rename.replace_range := wireRange 2 7 2 10;
              Rename.replace_text := "Bar" |}
           eq_refl (or_introl eq_refl)).
Defined.

(** X24: a pair of the batch gives the user at most one piece of
    feedback, a line in the output channel or a warning, never both:
    the lines and warnings that a batch adds number at most its source
    pairs, and what was in the channel and among the warnings before
    stays in front. *)
Theorem rename_feedback_bounded {path : PathApi} {lsp : Client}
    (getWorkspaceFolder : Uri -> option string) (client : bool)
    (files : list Rename.FilePair) (st : Rename.St) :
  exists lines warns,
    Rename.channel (snd (Rename.onWillRenameFiles getWorkspaceFolder client files st)) =
      Rename.channel st ++ lines /\
    Rename.warnings (snd (Rename.onWillRenameFiles getWorkspaceFolder client files st)) =
      Rename.warnings st ++ warns /\
    length lines + length warns <= length (List.filter Rename.isElmPair files).
Proof.
  rewrite onWillRenameFiles_run.
  destruct (client && negb _).
  - eexists _, _. cbn [snd Rename.afterBatch Rename.channel Rename.warnings
                       Rename.fresh_edit Rename.server].
    split; [reflexivity|]. split; [reflexivity|].
    etransitivity; [apply feedback_bounded|].
    rewrite answers_length, length_map. reflexivity.
  - exists [], []. simpl. rewrite !app_nil_r. repeat split. lia.
Qed.

(** ** The editor commands *)




